(** * Bot-in-a-box provisioning script ([biab/start.py])

    A shallow embedding of the set-up script and the properties of its
    provisioning pipeline.  The script is sequential glue around external
    tools (the [gcloud] command line, the Firebase REST API, the
    [firebase_admin] client, standard input and the file system), so the
    embedding is a state-and-exception monad over a [World] that records
    every external call in a trace, parameterised by an environment [Env]
    that answers those calls. *)

From Stdlib Require Import ZArith Ascii String List Bool Lia.
From stdpp Require Import base option list strings gmap.

Set Warnings "-register-all".

Open Scope string_scope.
Open Scope Z_scope.

(** ** Python values *)

(** A Python float as [json.loads] can produce it: a finite dyadic number
    [m * 2^e], an infinity, or a NaN. *)
Inductive pyfloat :=
| Ffinite (m e : Z)
| Finf (negative : bool)
| Fnan.

(** The values a decoded JSON document is made of; a JSON object is the
    Python [dict] it decodes to. *)
Inductive json :=
| JNull
| JBool (b : bool)
| JInt (z : Z)
| JFloat (f : pyfloat)
| JStr (s : string)
| JArr (l : list json)
| JObj (m : gmap string json).

(** Exceptions the script can raise or let through. *)
Inductive exn :=
| CalledProcessError (returncode : Z) (cmd : list string)
| EOFError
| TypeError (msg : string)
| KeyError (key : string)
| IndexError (msg : string)
| Exception (arg : json)
| LibraryError (origin : string).

(** The result of an operation that returns or raises. *)
Inductive result (A : Type) :=
| Ok (a : A)
| Fail (e : exn).
Arguments Ok {A} a.
Arguments Fail {A} e.

Module Py.

(** [bool(s)] for a string: non-empty. *)
Definition str_truthy (s : string) : bool :=
  match s with
  | EmptyString => false
  | String _ _ => true
  end.

(** [needle in haystack] for two strings. *)
Fixpoint str_contains (needle haystack : string) : bool :=
  String.prefix needle haystack
  || match haystack with
     | EmptyString => false
     | String _ rest => str_contains needle rest
     end.

(** The value of a finite float [m * 2^e] is the integer [n]. *)
Definition float_eq_int (f : pyfloat) (n : Z) : bool :=
  match f with
  | Ffinite m e =>
      if 0 <=? e then m * 2 ^ e =? n else m =? n * 2 ^ (- e)
  | Finf _ | Fnan => false
  end.

(** [v == n] for an integer literal [n]. *)
Definition eq_int (v : json) (n : Z) : bool :=
  match v with
  | JInt z => z =? n
  | JBool b => (if b then 1 else 0) =? n
  | JFloat f => float_eq_int f n
  | JNull | JStr _ | JArr _ | JObj _ => false
  end.

(** [v == s] for a string literal [s]. *)
Definition eq_str (v : json) (s : string) : bool :=
  match v with
  | JStr t => bool_decide (t = s)
  | _ => false
  end.

(** [bool(v)]. *)
Definition truthy (v : json) : bool :=
  match v with
  | JNull => false
  | JBool b => b
  | JInt z => negb (z =? 0)
  | JFloat (Ffinite m _) => negb (m =? 0)
  | JFloat (Finf _) | JFloat Fnan => true
  | JStr s => str_truthy s
  | JArr l => match l with [] => false | _ :: _ => true end
  | JObj m => match map_to_list m with [] => false | _ :: _ => true end
  end.

(** [key in v] for a string literal [key]. *)
Definition contains (key : string) (v : json) : result bool :=
  match v with
  | JObj m => Ok (bool_decide (is_Some (m !! key)))
  | JArr l => Ok (existsb (fun x => eq_str x key) l)
  | JStr s => Ok (str_contains key s)
  | JNull => Fail (TypeError "argument of type 'NoneType' is not iterable")
  | JBool _ => Fail (TypeError "argument of type 'bool' is not iterable")
  | JInt _ => Fail (TypeError "argument of type 'int' is not iterable")
  | JFloat _ => Fail (TypeError "argument of type 'float' is not iterable")
  end.

(** [v[key]] for a string literal [key]. *)
Definition getitem (v : json) (key : string) : result json :=
  match v with
  | JObj m =>
      match m !! key with
      | Some x => Ok x
      | None => Fail (KeyError key)
      end
  | JArr _ =>
      Fail (TypeError "list indices must be integers or slices, not str")
  | JStr _ => Fail (TypeError "string indices must be integers")
  | JNull => Fail (TypeError "'NoneType' object is not subscriptable")
  | JBool _ => Fail (TypeError "'bool' object is not subscriptable")
  | JInt _ => Fail (TypeError "'int' object is not subscriptable")
  | JFloat _ => Fail (TypeError "'float' object is not subscriptable")
  end.

End Py.

(** ** Text processing used by the script *)

Module Text.

(** The line feed, ['\n']. *)
Definition LF : ascii := ascii_of_nat 10.
Definition nl : string := String LF EmptyString.
Definition tab : string := String (ascii_of_nat 9) EmptyString.

(** [s] between two double-quote characters. *)
Definition quoted (s : string) : string :=
  let dq := String (ascii_of_nat 34) EmptyString in
  dq ++ s ++ dq.

(** [c.isspace()] for a character below code point 256. *)
Definition is_space (c : ascii) : bool :=
  let n := nat_of_ascii c in
  ((9 <=? n) && (n <=? 13) || (28 <=? n) && (n <=? 32)
   || (n =? 133) || (n =? 160))%nat.

(** [s.split(sep)] for a one-character separator. *)
Fixpoint split_on (sep : ascii) (s : string) : list string :=
  match s with
  | EmptyString => [EmptyString]
  | String c rest =>
      if Ascii.eqb c sep then EmptyString :: split_on sep rest
      else match split_on sep rest with
           | piece :: pieces => String c piece :: pieces
           | [] => [String c EmptyString]
           end
  end.

(** [s.split()]: the maximal runs of non-space characters. *)
Fixpoint split_ws (s : string) : list string :=
  match s with
  | EmptyString => []
  | String c rest =>
      let ws := split_ws rest in
      if is_space c then ws
      else match rest with
           | EmptyString => [String c EmptyString]
           | String d _ =>
               if is_space d then String c EmptyString :: ws
               else match ws with
                    | w :: ws' => String c w :: ws'
                    | [] => [String c EmptyString]
                    end
           end
  end.

(** [l[1:-1]]. *)
Definition slice_1_m1 {A} (l : list A) : list A := removelast (tail l).

(** [x in l] for a list of strings. *)
Definition str_in (x : string) (l : list string) : bool :=
  existsb (String.eqb x) l.

(** [c in s] for a character. *)
Fixpoint has_char (c : ascii) (s : string) : bool :=
  match s with
  | EmptyString => false
  | String d rest => Ascii.eqb d c || has_char c rest
  end.

(** [c] occurs in [s] before the first line feed. *)
Fixpoint line_has (c : ascii) (s : string) : bool :=
  match s with
  | EmptyString => false
  | String d rest =>
      if Ascii.eqb d LF then false else Ascii.eqb d c || line_has c rest
  end.

(** [s.find(sub)]: the index of the first occurrence of [sub] in [s]. *)
Fixpoint find (sub s : string) : option nat :=
  if String.prefix sub s then Some O
  else match s with
       | EmptyString => None
       | String _ rest => option_map S (find sub rest)
       end.

End Text.

(** ** The fragment of [re] the deploy step uses *)

Module Re.

(** Pattern items: a literal character, and the capture group [(.+)]. *)
Inductive item :=
| Lit (c : ascii)
| GroupAnyPlus.

Definition lit (s : string) : list item := map Lit (list_ascii_of_string s).

(** Length of the longest prefix that [.] can match: no line feed. *)
Fixpoint dot_run (s : string) : nat :=
  match s with
  | EmptyString => O
  | String c rest => if Ascii.eqb c Text.LF then O else S (dot_run rest)
  end.

(** [s[:n]] and [s[n:]]. *)
Fixpoint take (n : nat) (s : string) : string :=
  match n, s with
  | S n', String c s' => String c (take n' s')
  | _, _ => EmptyString
  end.

Fixpoint drop (n : nat) (s : string) : string :=
  match n, s with
  | S n', String _ s' => drop n' s'
  | _, _ => s
  end.

(** Greedy repetition with backtracking: try [k] characters, then [k-1],
    ... down to one, and keep the first length the continuation
    accepts. *)
Fixpoint backtrack (cont : string -> option (list string)) (s : string)
    (k : nat) : option (list string) :=
  match k with
  | O => None
  | S k' =>
      match cont (drop k s) with
      | Some groups => Some (take k s :: groups)
      | None => backtrack cont s k'
      end
  end.

(** [re.match]: the captured groups when the pattern matches a prefix. *)
Fixpoint match_here (p : list item) (s : string) : option (list string) :=
  match p with
  | [] => Some []
  | Lit c :: p' =>
      match s with
      | String d s' => if Ascii.eqb c d then match_here p' s' else None
      | EmptyString => None
      end
  | GroupAnyPlus :: p' => backtrack (match_here p') s (dot_run s)
  end.

(** [re.search]: the leftmost position where the pattern matches. *)
Fixpoint search (p : list item) (s : string) : option (list string) :=
  match match_here p s with
  | Some groups => Some groups
  | None =>
      match s with
      | EmptyString => None
      | String _ s' => search p s'
      end
  end.

End Re.

(** ** The world the script runs in *)

(** One entry per external call, in the order the script makes them. *)
Inductive Event :=
| EvPrint (args : list json)
| EvInput (prompt : string)
| EvRun (argv : list string)
| EvPopen (cmd : string) (cwd : option string)
| EvAccessToken (certificate : string)
| EvPost (uri : string) (headers : list (string * string))
| EvServiceAccountFile (path : string)
| EvDiscoveryBuild (service version : string)
| EvOperationsGet (name : json)
| EvExecute (name : json)
| EvSleep (seconds : Z)
| EvCertificate (path : string)
| EvInitializeApp (options : list (string * string))
| EvDbSet (path : string) (value : json)
| EvJsonDump (path : string) (value : json).

(** How the outside world answers.  Exit statuses and outputs of child
    processes, HTTP bodies and the successive states of the long-running
    operation are the environment's choice; [raises] gives the exception,
    if any, with which a library call (credentials loading, client
    construction, database write, file write) fails. *)
Record Env := {
  exit_status : list string -> Z;
  communicate : string -> string * string;
  getcwd : string;
  access_token : string -> result string;
  post_json : string -> list (string * string) -> result json;
  execute : json -> nat -> result json;
  raises : Event -> option exn
}.

Record World := {
  trace : list Event;
  stdin : list string;
  polls : nat;
  files : gmap string json;
  db : gmap string json
}.

Definition log (e : Event) (w : World) : World :=
  {| trace := trace w ++ [e]; stdin := stdin w; polls := polls w;
     files := files w; db := db w |}.

(** ** The monad of the script: state, exceptions, and fuel for loops *)

Inductive Outcome (A : Type) :=
| Done (a : A)
| Raised (e : exn)
| OutOfFuel.
Arguments Done {A} a.
Arguments Raised {A} e.
Arguments OutOfFuel {A}.

Definition M (A : Type) : Type := World -> Outcome A * World.

Definition ret {A} (a : A) : M A := fun w => (Done a, w).

Definition bind {A B} (c : M A) (k : A -> M B) : M B :=
  fun w =>
    match c w with
    | (Done a, w') => k a w'
    | (Raised e, w') => (Raised e, w')
    | (OutOfFuel, w') => (OutOfFuel, w')
    end.

Definition raise {A} (e : exn) : M A := fun w => (Raised e, w).

Definition emit (e : Event) : M unit := fun w => (Done tt, log e w).

Definition lift {A} (r : result A) : M A :=
  match r with
  | Ok a => ret a
  | Fail e => raise e
  end.

Declare Scope script_scope.
Delimit Scope script_scope with script.
Notation "x <- c ;; k" := (bind c (fun x => k))
  (at level 100, c at next level, right associativity) : script_scope.
Notation "c ;; k" := (bind c (fun _ => k))
  (at level 100, right associativity) : script_scope.
Open Scope script_scope.

(** [try: body except subprocess.CalledProcessError: handler]. *)
Definition try_except_CalledProcessError {A} (body handler : M A) : M A :=
  fun w =>
    match body w with
    | (Raised (CalledProcessError _ _), w') => handler w'
    | r => r
    end.

(** [while cond(s): s = body(s)], on the loop-carried variable [s]. *)
Fixpoint while {S} (fuel : nat) (cond : S -> bool) (body : S -> M S)
    (s : S) : M S :=
  if cond s then
    match fuel with
    | O => fun w => (OutOfFuel, w)
    | Datatypes.S fuel' => s' <- body s ;; while fuel' cond body s'
    end
  else ret s.

(** [while True: body], where the body either falls through to the next
    iteration or executes [return]. *)
Inductive flow (A : Type) :=
| Next
| Return (a : A).
Arguments Next {A}.
Arguments Return {A} a.

Fixpoint while_True {A} (fuel : nat) (body : M (flow A)) : M A :=
  match fuel with
  | O => fun w => (OutOfFuel, w)
  | S fuel' =>
      f <- body ;;
      match f with
      | Return a => ret a
      | Next => while_True fuel' body
      end
  end.

(** [for x in l: body(x)]. *)
Fixpoint for_each {A} (l : list A) (body : A -> M unit) : M unit :=
  match l with
  | [] => ret tt
  | x :: rest => body x ;; for_each rest body
  end.

(** [a and b] on conditions that may raise: [b] is evaluated only when
    [a] holds. *)
Definition and_then (a b : M bool) : M bool :=
  x <- a ;; if x then b else ret false.

(** [list(map(f, l))] for an [f] that may raise. *)
Fixpoint map_result {A B} (f : A -> result B) (l : list A) : result (list B) :=
  match l with
  | [] => Ok []
  | x :: rest =>
      match f x with
      | Fail e => Fail e
      | Ok y =>
          match map_result f rest with
          | Fail e => Fail e
          | Ok ys => Ok (y :: ys)
          end
      end
  end.

(** ** The script *)

Definition FIREBASE_CREDENTIALS_FILE_NAME : string :=
  "generated_firebase_credentials.json".
Definition SERVICE_ACCOUNT_NAME : string := "firebase-bm-df-bot".

(** [f'../resources/{FIREBASE_CREDENTIALS_FILE_NAME}'] *)
Definition credentials_path : string :=
  "../resources/" ++ FIREBASE_CREDENTIALS_FILE_NAME.

(** [r'Deployed service \[default\] to \[(.+)\]'] *)
Definition url_regex : list Re.item :=
  Re.lit "Deployed service " ++ [Re.Lit "["] ++ Re.lit "default"
  ++ [Re.Lit "]"] ++ Re.lit " to " ++ [Re.Lit "["] ++ [Re.GroupAnyPlus]
  ++ [Re.Lit "]"].

(** [f'https://{project_id}.firebaseio.com'] *)
Definition database_url (project_id : string) : string :=
  "https://" ++ project_id ++ ".firebaseio.com".

(** [f'https://firebase.googleapis.com/v1beta1/projects/{project_id}:addFirebase'] *)
Definition add_firebase_uri (project_id : string) : string :=
  "https://firebase.googleapis.com/v1beta1/projects/" ++ project_id
  ++ ":addFirebase".

(** The command lines of the service-account step. *)
Definition service_account_email (project_id : string) : string :=
  SERVICE_ACCOUNT_NAME ++ "@" ++ project_id ++ ".iam.gserviceaccount.com".

Definition create_account_argv : list string :=
  ["gcloud"; "iam"; "service-accounts"; "create"; SERVICE_ACCOUNT_NAME;
   "--description=" ++ Text.quoted "Created by bot-in-a-box";
   "--display-name=" ++ Text.quoted "Firebase Service Account"].

Definition create_key_argv (project_id : string) : list string :=
  ["gcloud"; "iam"; "service-accounts"; "keys"; "create"; credentials_path;
   "--iam-account"; service_account_email project_id].

Definition add_role_argv (project_id : string) : list string :=
  ["gcloud"; "projects"; "add-iam-policy-binding"; project_id;
   "--member=serviceAccount:" ++ service_account_email project_id;
   "--role=roles/editor"].

(** The command line of the app creation. *)
Definition create_app_argv (deploy_region : string) : list string :=
  ["gcloud"; "app"; "create"; "--region=" ++ deploy_region].

Definition region_prompt : string :=
  "Choose a region for the App Engine project: ".

Section Script.

Context (env : Env).

(** *** External calls *)

Definition print (args : list json) : M unit := emit (EvPrint args).

Definition print_str (s : string) : M unit := print [JStr s].

(** [input(prompt)]: the next line of standard input; [EOFError] when
    there is none. *)
Definition input (prompt : string) : M string :=
  fun w =>
    match stdin w with
    | [] => (Raised EOFError, log (EvInput prompt) w)
    | line :: rest =>
        (Done line,
         {| trace := trace w ++ [EvInput prompt]; stdin := rest;
            polls := polls w; files := files w; db := db w |})
    end.

(** [subprocess.run(argv, check=True)] *)
Definition subprocess_run (argv : list string) : M unit :=
  emit (EvRun argv) ;;
  let returncode := exit_status env argv in
  if returncode =? 0 then ret tt
  else raise (CalledProcessError returncode argv).

(** [subprocess.Popen(cmd, stdout=PIPE, stderr=PIPE, shell=True,
    cwd=cwd).communicate()], with the two streams as the text that
    [decode('utf-8')] gives.  The environment hands the decoded text: a
    stream that is not UTF-8, on which the script's [decode] raises
    [UnicodeDecodeError], is not among the runs described here. *)
Definition popen_communicate (cmd : string) (cwd : option string)
    : M (string * string) :=
  emit (EvPopen cmd cwd) ;; ret (communicate env cmd).

(** A library call made for its effect. *)
Definition call (e : Event) : M unit :=
  emit e ;;
  match raises env e with
  | Some x => raise x
  | None => ret tt
  end.

(** [requests.post(uri, headers=headers).json()] *)
Definition requests_post_json (uri : string)
    (headers : list (string * string)) : M json :=
  emit (EvPost uri headers) ;; lift (post_json env uri headers).

(** [request.execute()] on the operation resource: the environment's
    next answer. *)
Definition request_execute (name : json) : M json :=
  fun w =>
    let w' := {| trace := trace w ++ [EvExecute name]; stdin := stdin w;
                 polls := S (polls w); files := files w; db := db w |} in
    match execute env name (polls w) with
    | Ok r => (Done r, w')
    | Fail e => (Raised e, w')
    end.

(** [db.reference(path).set(value)] *)
Definition db_reference_set (path : string) (value : json) : M unit :=
  call (EvDbSet path value) ;;
  fun w =>
    (Done tt,
     {| trace := trace w; stdin := stdin w; polls := polls w;
        files := files w; db := <[path := value]> (db w) |}).

(** [with open(path, 'w') as file: json.dump(value, file)], as one step
    that writes [value] to [path] or raises.  A failure stands for one of
    [open], which leaves the file as it was; a failure of [json.dump]
    after [open] has truncated the file is not described here. *)
Definition json_dump_to (path : string) (value : json) : M unit :=
  call (EvJsonDump path value) ;;
  fun w =>
    (Done tt,
     {| trace := trace w; stdin := stdin w; polls := polls w;
        files := <[path := value]> (files w); db := db w |}).

(** *** [enable_apis] *)

Definition apis_to_enable : list string :=
  ["iam.googleapis.com"; "dialogflow.googleapis.com";
   "firebase.googleapis.com"; "cloudbuild.googleapis.com";
   "businessmessages.googleapis.com";
   "businesscommunications.googleapis.com"].

Definition enable_apis : M unit :=
  print_str "Enabling APIs..." ;;
  for_each apis_to_enable (fun api =>
    print_str (Text.tab ++ api) ;;
    subprocess_run ["gcloud"; "services"; "enable"; api]).

(** *** [set_region] *)

(** [x.split()[0]] *)
Definition first_word (x : string) : result string :=
  match Text.split_ws x with
  | w :: _ => Ok w
  | [] => Fail (IndexError "list index out of range")
  end.

(** The names offered by [gcloud app regions list]: the first word of
    every line but the header and what follows the last line feed. *)
Definition parse_regions (out : string) : result (list string) :=
  let regions := Text.slice_1_m1 (Text.split_on Text.LF out) in
  map_result first_word regions.

Definition set_region (fuel : nat) : M unit :=
  out_err <- popen_communicate "gcloud app describe" None ;;
  let '(out, err) := out_err in
  if Py.str_truthy err then
    out_err <- popen_communicate "gcloud app regions list" None ;;
    let '(out, err) := out_err in
    regions_list <- lift (parse_regions out) ;;
    print_str (Text.nl ++ "Regions:") ;;
    print_str (String.concat Text.nl regions_list) ;;
    deploy_region <-
      while fuel
        (fun deploy_region => negb (Text.str_in deploy_region regions_list))
        (fun _ => input region_prompt)
        EmptyString ;;
    subprocess_run (create_app_argv deploy_region)
  else ret tt.

(** *** [get_service_key] *)

Definition get_service_key (project_id : string) : M unit :=
  print_str "Creating and saving service account..." ;;
  try_except_CalledProcessError
    (subprocess_run create_account_argv ;;
     subprocess_run (create_key_argv project_id))
    (print_str
       "Service account already exists or unable to create service account. Continuing...") ;;
  try_except_CalledProcessError
    (subprocess_run (add_role_argv project_id))
    (print_str
       "Failed to add editor roles to service account. Continuing...").


(** *** [get_access_token] *)

Definition get_access_token : M string :=
  emit (EvAccessToken credentials_path) ;;
  lift (access_token env credentials_path).

(** *** [wait_for_operation] *)

(** One round of the [while True] loop: poll the operation, then raise,
    return, or sleep a second and go round again. *)
Definition poll_once (name : json) : M (flow unit) :=
  result <- request_execute name ;;
  has_error <- lift (Py.contains "error" result) ;;
  if has_error then
    error <- lift (Py.getitem result "error") ;;
    raise (Exception error)
  else
    done <-
      and_then (lift (Py.contains "done" result))
        (d <- lift (Py.getitem result "done") ;; ret (Py.truthy d)) ;;
    if done then
      print_str "Add Firebase operation completed." ;;
      ret (Return tt)
    else
      emit (EvSleep 1) ;;
      ret Next.

Definition wait_for_operation (fuel : nat) (operation_name : json) : M unit :=
  call (EvServiceAccountFile credentials_path) ;;
  call (EvDiscoveryBuild "firebase" "v1beta1") ;;
  let name := operation_name in
  call (EvOperationsGet name) ;;
  print_str "Waiting for Firebase add operation to complete..." ;;
  while_True fuel (poll_once name).

(** *** [initialize_firebase] *)

Definition sentinel : json := JObj {[ "completed" := JBool true ]}.

Definition initialize_firebase (fuel : nat) (project_id : string) : M unit :=
  print_str "Initializing Firebase..." ;;
  access_token <- get_access_token ;;
  let uri := add_firebase_uri project_id in
  let headers := [("Authorization", "Bearer " ++ access_token)] in
  request <- requests_post_json uri headers ;;
  already_exists <-
    and_then (lift (Py.contains "error" request))
      (error <- lift (Py.getitem request "error") ;;
       code <- lift (Py.getitem error "code") ;;
       ret (Py.eq_int code 409)) ;;
  if already_exists then
    print_str "Firebase entity already exists"
  else
    has_name <- lift (Py.contains "name" request) ;;
    if has_name then
      name <- lift (Py.getitem request "name") ;;
      print [JStr "Operation name:"; name] ;;
      wait_for_operation fuel name ;;
      call (EvCertificate credentials_path) ;;
      call (EvInitializeApp [("databaseURL", database_url project_id)]) ;;
      db_reference_set "setup/" sentinel
    else ret tt.

(** *** [create_config] *)

Definition config_path : string := "../resources/config.json".

Definition create_config (project_id partner_key : string) : M unit :=
  print_str "Creating configuration file..." ;;
  let config : gmap string json := ∅ in
  let config := <["use_firebase_for_credentials" := JBool true]> config in
  let config :=
    <["firebase_service_account" := JStr FIREBASE_CREDENTIALS_FILE_NAME]>
      config in
  let config := <["verification_token" := JStr partner_key]> config in
  let config :=
    <["firebase_database_url" := JStr (database_url project_id)]> config in
  json_dump_to config_path (JObj config).

(** *** [deploy] *)

(** [m[1]] on the result of [re.search]. *)
Definition group_1 (m : option (list string)) : result string :=
  match m with
  | None => Fail (TypeError "'NoneType' object is not subscriptable")
  | Some groups =>
      match groups with
      | g :: _ => Ok g
      | [] => Fail (IndexError "no such group")
      end
  end.

Definition deploy : M string :=
  print_str "Deploying. This may take several minutes..." ;;
  out_err <-
    popen_communicate "gcloud app deploy --quiet"
      (Some (getcwd env ++ "/../")) ;;
  let '(_, err) := out_err in
  let deploy_log := err in
  print_str deploy_log ;;
  let deploy_url := Re.search url_regex deploy_log in
  lift (group_1 deploy_url).

(** *** [main] *)

Definition rules_url (project_id : string) : string :=
  "https://console.firebase.google.com/project/" ++ project_id
  ++ "/database/" ++ project_id ++ "/rules".

Definition summary (deployed_url project_id : string) : string :=
  Text.nl
  ++ "    Link to Administration console: " ++ deployed_url ++ "/admin."
  ++ Text.nl
  ++ "    Link to Firebase Rules: " ++ rules_url project_id ++ Text.nl
  ++ "    Please follow the instructions in the README of the parent directory."
  ++ Text.nl ++ "    ".

Definition main (fuel : nat) : M unit :=
  project_id <-
    while fuel (fun project_id => negb (Py.str_truthy project_id))
      (fun _ =>
         input "Google Cloud Project ID (not necessarily project name): ")
      EmptyString ;;
  partner_key <-
    while fuel (fun partner_key => negb (Py.str_truthy partner_key))
      (fun _ => input "Partner key from Google: ")
      EmptyString ;;
  print [JStr "Setting Active Project ID to:"; JStr project_id] ;;
  subprocess_run ["gcloud"; "config"; "set"; "project"; project_id] ;;
  set_region fuel ;;
  enable_apis ;;
  get_service_key project_id ;;
  initialize_firebase fuel project_id ;;
  create_config project_id partner_key ;;
  deployed_url <- deploy ;;
  print_str (Text.nl ++ Text.nl ++ Text.nl ++ "---") ;;
  print_str (summary deployed_url project_id).

End Script.

(** * Vocabulary of the properties *)

Open Scope list_scope.

(** ** Traces and relations between worlds *)

(** The events a computation adds to the trace. *)
Definition adds (w w' : World) (t : list Event) : Prop :=
  trace w' = trace w ++ t.

(** A relation between the worlds before and after a computation that
    holds whatever the outcome; reflexive and transitive relations are
    carried through sequencing and loops. *)
Definition preserves {A} (R : World -> World -> Prop) (c : M A) : Prop :=
  forall w o w', c w = (o, w') -> R w w'.

(** The computation only adds events that satisfy [Q]. *)
Definition only (Q : Event -> Prop) (w w' : World) : Prop :=
  exists t, adds w w' t /\ Forall Q t.

(** ** Responses of the provider *)

(** The error envelope of the provider's REST API: the [code] member of
    the [error] member of a response body, which repeats the HTTP status
    of the response. *)
Definition error_code (response : json) : option json :=
  match response with
  | JObj m =>
      match m !! "error" with
      | Some (JObj e) => e !! "code"
      | _ => None
      end
  | _ => None
  end.

(** The response body has a member [key]. *)
Definition has_key (key : string) (response : json) : Prop :=
  exists m v, response = JObj m /\ m !! key = Some v.

(** What [initialize_firebase] does before it looks at the response. *)
Definition request_events (project_id token : string) : list Event :=
  [EvPrint [JStr "Initializing Firebase..."];
   EvAccessToken "../resources/generated_firebase_credentials.json";
   EvPost (add_firebase_uri project_id) [("Authorization", "Bearer " +:+ token)]].

(** The world after [n] more polls that added the events [t]. *)
Definition after (t : list Event) (n : nat) (w : World) : World :=
  {| trace := trace w ++ t; stdin := stdin w; polls := (polls w + n)%nat;
     files := files w; db := db w |}.

(** The answer of the operation resource has no [error] member and no
    [done] member that Python takes for true: the loop goes round again. *)
Definition pending (answer : result json) : Prop :=
  exists m, answer = Ok (JObj m)
    /\ m !! "error" = None
    /\ (m !! "done" = None
        \/ exists d, m !! "done" = Some d /\ Py.truthy d = false).

(** The answer has a [done] member that Python takes for true. *)
Definition reports_done (answer : result json) : Prop :=
  exists m d, answer = Ok (JObj m) /\ m !! "done" = Some d
    /\ Py.truthy d = true.

(** The answer has the [error] member [error]. *)
Definition reports_error (error : json) (answer : result json) : Prop :=
  exists m, answer = Ok (JObj m) /\ m !! "error" = Some error.

(** The answer has no [error] member. *)
Definition no_error (answer : result json) : Prop :=
  forall error, ~ reports_error error answer.

(** [n] rounds of polling and sleeping a second. *)
Fixpoint poll_rounds (name : json) (n : nat) : list Event :=
  match n with
  | O => []
  | S n' => EvExecute name :: EvSleep 1 :: poll_rounds name n'
  end.

(** The calls [wait_for_operation] makes before it starts polling. *)
Definition wait_setup (name : json) : list Event :=
  [EvServiceAccountFile "../resources/generated_firebase_credentials.json";
   EvDiscoveryBuild "firebase" "v1beta1";
   EvOperationsGet name;
   EvPrint [JStr "Waiting for Firebase add operation to complete..."]].

(** The credentials load, the client is built and the request is made. *)
Definition setup_succeeds (env : Env) (name : json) : Prop :=
  raises env (EvServiceAccountFile credentials_path) = None
  /\ raises env (EvDiscoveryBuild "firebase" "v1beta1") = None
  /\ raises env (EvOperationsGet name) = None.

(** The first test of [initialize_firebase] fails on the response [m]:
    it has no [error] member, or one whose code is not 409. *)
Definition not_conflict (m : gmap string json) : Prop :=
  m !! "error" = None
  \/ exists code, error_code (JObj m) = Some code /\ Py.eq_int code 409 = false.

(** What is left to do once the operation has completed. *)
Definition write_sentinel (env : Env) (project_id : string) : M unit :=
  call env (EvCertificate credentials_path) ;;
  call env (EvInitializeApp [("databaseURL", database_url project_id)]) ;;
  db_reference_set env "setup/" sentinel.

(** ** Commands and messages *)

(** The text before the capture group of [url_regex]. *)
Definition marker : string := "Deployed service [default] to [".

(** The command line of the deployment. *)
Definition deploy_command : string := "gcloud app deploy --quiet".

(** What the two handlers of [get_service_key] print. *)
Definition account_failure_message : Event :=
  EvPrint [JStr "Service account already exists or unable to create service account. Continuing..."].

Definition role_failure_message : Event :=
  EvPrint [JStr "Failed to add editor roles to service account. Continuing..."].

(** The event is a prompt. *)
Definition is_input (e : Event) : Prop := exists prompt, e = EvInput prompt.

(** ** The steps of a run *)

(** The steps of a run, as the external calls reveal them. *)
Inductive Step :=
| Prompting
| ProjectSetting
| RegionSelection
| ApiEnablement
| ServiceAccountProvisioning
| DatabaseInitialization
| ConfigurationEmission
| Deployment.

#[global] Instance Step_eq_dec : EqDecision Step.
Proof. solve_decision. Defined.

(** The step an external call belongs to; printing belongs to none. *)
Definition step_of (e : Event) : option Step :=
  match e with
  | EvPrint _ => None
  | EvInput prompt =>
      if String.eqb prompt region_prompt then Some RegionSelection
      else Some Prompting
  | EvRun argv =>
      match argv with
      | _ :: group :: _ =>
          if String.eqb group "config" then Some ProjectSetting
          else if String.eqb group "app" then Some RegionSelection
          else if String.eqb group "services" then Some ApiEnablement
          else if String.eqb group "iam" || String.eqb group "projects"
          then Some ServiceAccountProvisioning
          else None
      | _ => None
      end
  | EvPopen cmd _ =>
      if String.eqb cmd deploy_command then Some Deployment
      else Some RegionSelection
  | EvAccessToken _ | EvPost _ _ | EvServiceAccountFile _
  | EvDiscoveryBuild _ _ | EvOperationsGet _ | EvExecute _ | EvSleep _
  | EvCertificate _ | EvInitializeApp _ | EvDbSet _ _ =>
      Some DatabaseInitialization
  | EvJsonDump _ _ => Some ConfigurationEmission
  end.

(** A list of steps with runs of one step collapsed to a single entry. *)
Fixpoint compress (l : list Step) : list Step :=
  match l with
  | [] => []
  | x :: rest =>
      match compress rest with
      | y :: done => if decide (x = y) then y :: done else x :: y :: done
      | [] => [x]
      end
  end.

(** The steps of a trace, in the order in which they were carried out. *)
Definition phases (t : list Event) : list Step := compress (omap step_of t).

(** [x] occurs in [l] and [y] occurs later. *)
Fixpoint occurs_before (x y : Step) (l : list Step) : bool :=
  match l with
  | [] => false
  | z :: rest =>
      (bool_decide (z = x) && bool_decide (y ∈ rest))
      || occurs_before x y rest
  end.

(** The events added are all of step [X], printing apart. *)
Definition block (X : Step) (w w' : World) : Prop :=
  exists t n, adds w w' t /\ omap step_of t = replicate n X.

(** Whatever its outcome, the computation makes at least one call of step
    [X], and none of another step. *)
Definition carries_out {A} (X : Step) (c : M A) : Prop :=
  forall w o w', c w = (o, w') ->
    exists t n, adds w w' t /\ omap step_of t = replicate (S n) X.

(** The event belongs to step [X] or to none. *)
Definition in_step (X : Step) (e : Event) : Prop :=
  step_of e = None \/ step_of e = Some X.

(** ** Sample environments *)

(** An environment in which every call succeeds at once: an app exists,
    the database is added by an operation that is done at the first poll,
    and the deployment log names the URL on a line of its own. *)
Definition calm_env : Env :=
  {| exit_status := fun _ => 0;
     communicate := fun cmd =>
       if String.eqb cmd deploy_command then
         (EmptyString,
          "Updating service [default]...done." +:+ Text.nl
          +:+ "Deployed service [default] to [https://example.appspot.com]"
          +:+ Text.nl +:+ "You can stream logs from the command line")
       else ("id: example", EmptyString);
     getcwd := "/srv/bot/biab";
     access_token := fun _ => Ok "ya29.token";
     post_json := fun _ _ => Ok (JObj {[ "name" := JStr "operations/42" ]});
     execute := fun _ _ => Ok (JObj {[ "done" := JBool true ]});
     raises := fun _ => None |}.

(** The environment [env] with one answer changed. *)
Definition with_output (cmd : string) (out_err : string * string) (env : Env)
    : Env :=
  {| exit_status := exit_status env;
     communicate := fun c =>
       if String.eqb c cmd then out_err else communicate env c;
     getcwd := getcwd env; access_token := access_token env;
     post_json := post_json env; execute := execute env;
     raises := raises env |}.

Definition with_exit_status (status : list string -> Z) (env : Env) : Env :=
  {| exit_status := status; communicate := communicate env;
     getcwd := getcwd env; access_token := access_token env;
     post_json := post_json env; execute := execute env;
     raises := raises env |}.

Definition with_response (response : json) (env : Env) : Env :=
  {| exit_status := exit_status env; communicate := communicate env;
     getcwd := getcwd env; access_token := access_token env;
     post_json := fun _ _ => Ok response; execute := execute env;
     raises := raises env |}.

Definition with_answers (answers : nat -> json) (env : Env) : Env :=
  {| exit_status := exit_status env; communicate := communicate env;
     getcwd := getcwd env; access_token := access_token env;
     post_json := post_json env; execute := fun _ k => Ok (answers k);
     raises := raises env |}.

(** A fresh world in which the user will type the given lines. *)
Definition fresh (lines : list string) : World :=
  {| trace := []; stdin := lines; polls := 0; files := ∅; db := ∅ |}.

(** Bodies with which the provider answers the add-database call. *)
Definition conflict_response : json :=
  JObj {[ "error" :=
            JObj (<["code" := JInt 409]>
                    {[ "status" := JStr "ALREADY_EXISTS" ]}) ]}.

Definition denied_response : json :=
  JObj {[ "error" :=
            JObj (<["code" := JInt 403]>
                    {[ "status" := JStr "PERMISSION_DENIED" ]}) ]}.

(** An operation and the error it may end with. *)
Definition operation_name : json := JStr "operations/42".

Definition internal_error : json := JObj {[ "code" := JInt 13 ]}.

(** The operation is pending twice and then done. *)
Definition done_at_third_poll (k : nat) : json :=
  if (k <? 2)%nat then JObj {[ "done" := JBool false ]}
  else JObj {[ "done" := JBool true ]}.

(** The operation is pending once and then fails. *)
Definition fails_at_second_poll (k : nat) : json :=
  if (k <? 1)%nat then JObj ∅ else JObj {[ "error" := internal_error ]}.

(** The operation is pending once and then done with an error, as a
    failed long-running operation is reported. *)
Definition done_with_error_at_second_poll (k : nat) : json :=
  if (k <? 1)%nat then JObj ∅
  else JObj (<["done" := JBool true]> {[ "error" := internal_error ]}).

(** The operation never completes. *)
Definition never_done (k : nat) : json := JObj ∅.

(** What [gcloud app regions list] prints. *)
Definition regions_listing : string :=
  "REGION        SUPPORTS_STANDARD  SUPPORTS_FLEXIBLE" +:+ Text.nl
  +:+ "asia-east2    YES                YES" +:+ Text.nl
  +:+ "us-central    YES                YES" +:+ Text.nl.

(** No app exists yet: [gcloud app describe] complains. *)
Definition new_project_env : Env :=
  with_output "gcloud app describe"
    (EmptyString, "ERROR: (gcloud.app.describe) The current project has no app.")
    (with_output "gcloud app regions list" (regions_listing, EmptyString)
       calm_env).

(** ** Invariants of runs *)

(** A relation between worlds that is kept by every call that satisfies
    [P] and touches neither the files nor the database. *)
Record Invariant (P : Event -> Prop) (R : World -> World -> Prop) : Prop := {
  inv_refl : forall w, R w w;
  inv_trans : forall w1 w2 w3, R w1 w2 -> R w2 w3 -> R w1 w3;
  inv_step : forall e w w',
    P e -> trace w' = trace w ++ [e] -> files w' = files w ->
    db w' = db w -> R w w'
}.

(** The event is a write to the database. *)
Definition is_db_set (e : Event) : Prop :=
  exists path value, e = EvDbSet path value.

(** What the polling loop prints when the operation is done. *)
Definition completed_message : Event :=
  EvPrint [JStr "Add Firebase operation completed."].

(** No write to the database was attempted, and the database is as it
    was. *)
Definition quiet (w w' : World) : Prop :=
  exists t, adds w w' t /\ Forall (fun e => ~ is_db_set e) t /\ db w' = db w.

(** The only write to the database that was attempted is that of the
    sentinel record, after the operation was reported done, and the
    database has changed by that record at most. *)
Definition guarded (w w' : World) : Prop :=
  exists t,
    adds w w' t
    /\ (forall path value, In (EvDbSet path value) t ->
        path = "setup/" /\ value = sentinel /\ In completed_message t)
    /\ (db w' = db w
        \/ (db w' = <["setup/" := sentinel]> (db w)
            /\ In completed_message t)).

(** The command line that enables an API, and what [enable_apis] does for
    a list of APIs. *)
Definition enable_argv (api : string) : list string :=
  ["gcloud"; "services"; "enable"; api].

Definition enable_events (apis : list string) : list Event :=
  flat_map
    (fun api => [EvPrint [JStr (Text.tab +:+ api)]; EvRun (enable_argv api)])
    apis.

(** The steps of [main], in the order of its calls. *)
Definition full_order : list Step :=
  [Prompting; ProjectSetting; RegionSelection; ApiEnablement;
   ServiceAccountProvisioning; DatabaseInitialization; ConfigurationEmission;
   Deployment].

(** Whatever its outcome, the computation carries out the steps [L] in
    order, as far as it gets: all of them when it returns. *)
Definition in_order {A} (L : list Step) (c : M A) : Prop :=
  forall w o w', c w = (o, w') ->
    exists t, adds w w' t
      /\ phases t `prefix_of` L
      /\ (forall a, o = Done a -> phases t = L).

(** A table as [gcloud] prints it: one line per row, a name followed by
    a space and the other columns. *)
Fixpoint table_rows (rows : list (string * string)) : string :=
  match rows with
  | [] => EmptyString
  | (name, columns) :: rest =>
      name +:+ String " " columns +:+ String Text.LF (table_rows rest)
  end.

(** A name that [split()] keeps whole: not empty, no white space. *)
Definition is_word (name : string) : Prop :=
  name <> EmptyString
  /\ Forall (fun c => Text.is_space c = false) (list_ascii_of_string name).

(** The first API but two cannot be enabled. *)
Definition firebase_api_disabled : Env :=
  with_exit_status
    (fun argv =>
       if decide (argv = enable_argv "firebase.googleapis.com") then 1 else 0)
    calm_env.

(** The credentials file is missing. *)
Definition no_credentials_env : Env :=
  {| exit_status := exit_status calm_env;
     communicate := communicate calm_env;
     getcwd := getcwd calm_env;
     access_token := fun _ =>
       Fail (LibraryError "firebase_admin.credentials.Certificate");
     post_json := post_json calm_env; execute := execute calm_env;
     raises := raises calm_env |}.

(** The operation is pending once; the second poll cannot be made. *)
Definition unreachable_at_second_poll : Env :=
  {| exit_status := exit_status calm_env;
     communicate := communicate calm_env;
     getcwd := getcwd calm_env;
     access_token := access_token calm_env;
     post_json := post_json calm_env;
     execute := fun _ k =>
       if (k <? 1)%nat then Ok (JObj ∅)
       else Fail (LibraryError "googleapiclient.errors.HttpError");
     raises := raises calm_env |}.

(** The database client is initialised with the URL of the project, if at
    all. *)
Definition initialises_with (url : string) (e : Event) : Prop :=
  forall options,
    e = EvInitializeApp options -> options = [("databaseURL", url)].

(** * Properties *)

(** ** The text functions on sample inputs *)

Example split_ws_line :
  Text.split_ws "us-central    YES                YES" = ["us-central"; "YES"; "YES"].
Proof. reflexivity. Qed.

Example split_ws_blank : Text.split_ws "   " = [].
Proof. reflexivity. Qed.

Example parse_regions_listing :
  parse_regions regions_listing = Ok ["asia-east2"; "us-central"].
Proof. reflexivity. Qed.

Example parse_regions_blank_line :
  parse_regions ("REGION" +:+ Text.nl +:+ Text.nl +:+ "us-central" +:+ Text.nl)
  = Fail (IndexError "list index out of range").
Proof. reflexivity. Qed.

Example search_url_on_its_line :
  Re.search url_regex (snd (communicate calm_env deploy_command))
  = Some ["https://example.appspot.com"].
Proof. reflexivity. Qed.

Example search_needs_a_character :
  Re.search url_regex "Deployed service [default] to []" = None.
Proof. reflexivity. Qed.

Example set_region_new_project :
  trace (snd (set_region new_project_env 5 (fresh ["mars"; "us-central"])))
  = [EvPopen "gcloud app describe" None;
     EvPopen "gcloud app regions list" None;
     EvPrint [JStr (Text.nl +:+ "Regions:")];
     EvPrint [JStr ("asia-east2" +:+ Text.nl +:+ "us-central")];
     EvInput region_prompt; EvInput region_prompt;
     EvRun ["gcloud"; "app"; "create"; "--region=us-central"]].
Proof. reflexivity. Qed.

Example set_region_existing_app :
  set_region calm_env 5 (fresh [])
  = (Done tt, log (EvPopen "gcloud app describe" None) (fresh [])).
Proof. reflexivity. Qed.

(** ** What a computation does to the world *)

Lemma adds_nil w : adds w w [].
Proof. unfold adds. by rewrite app_nil_r. Qed.

Lemma adds_app w1 w2 w3 t1 t2 :
  adds w1 w2 t1 -> adds w2 w3 t2 -> adds w1 w3 (t1 ++ t2).
Proof. unfold adds. intros H1 H2. by rewrite H2, H1, app_assoc. Qed.

Lemma adds_log w e : adds w (log e w) [e].
Proof. reflexivity. Qed.

Lemma adds_inj w w' t1 t2 : adds w w' t1 -> adds w w' t2 -> t1 = t2.
Proof.
  unfold adds. intros H1 H2. rewrite H1 in H2.
  by apply app_inv_head in H2.
Qed.

Section Preservation.

Context (R : World -> World -> Prop).
Hypothesis R_refl : forall w, R w w.
Hypothesis R_trans : forall w1 w2 w3, R w1 w2 -> R w2 w3 -> R w1 w3.

Lemma preserves_ret {A} (a : A) : preserves R (ret a).
Proof. intros w o w' [= <- <-]. apply R_refl. Qed.

Lemma preserves_raise {A} (e : exn) : preserves R (@raise A e).
Proof. intros w o w' [= <- <-]. apply R_refl. Qed.

Lemma preserves_lift {A} (r : result A) : preserves R (lift r).
Proof. destruct r; [apply preserves_ret | apply preserves_raise]. Qed.

Lemma preserves_bind {A B} (c : M A) (k : A -> M B) :
  preserves R c -> (forall a, preserves R (k a)) -> preserves R (bind c k).
Proof.
  intros Hc Hk w o w'. unfold bind.
  destruct (c w) as [[a | e |] w1] eqn:E; intros H.
  - eapply R_trans; [eapply Hc, E | eapply Hk, H].
  - injection H as <- <-. eapply Hc, E.
  - injection H as <- <-. eapply Hc, E.
Qed.

Lemma preserves_try {A} (body handler : M A) :
  preserves R body -> preserves R handler ->
  preserves R (try_except_CalledProcessError body handler).
Proof.
  intros Hb Hh w o w'. unfold try_except_CalledProcessError.
  destruct (body w) as [[a | e |] w1] eqn:E; intros H;
    try (injection H as <- <-; eapply Hb, E).
  destruct e; try (injection H as <- <-; eapply Hb, E).
  eapply R_trans; [eapply Hb, E | eapply Hh, H].
Qed.

Lemma preserves_while {S} fuel (cond : S -> bool) (body : S -> M S) s :
  (forall x, preserves R (body x)) -> preserves R (while fuel cond body s).
Proof.
  intros Hb. revert s. induction fuel as [| fuel IH]; intros s; simpl.
  - destruct (cond s); [| apply preserves_ret].
    intros w o w' [= <- <-]. apply R_refl.
  - destruct (cond s); [| apply preserves_ret].
    apply preserves_bind; auto.
Qed.

Lemma preserves_while_True {A} fuel (body : M (flow A)) :
  preserves R body -> preserves R (while_True fuel body).
Proof.
  intros Hb. induction fuel as [| fuel IH]; simpl.
  - intros w o w' [= <- <-]. apply R_refl.
  - apply preserves_bind; [done |].
    intros [| a]; [done | apply preserves_ret].
Qed.

Lemma preserves_for_each {A} (l : list A) (body : A -> M unit) :
  (forall x, preserves R (body x)) -> preserves R (for_each l body).
Proof.
  intros Hb. induction l as [| x l IH]; simpl.
  - apply preserves_ret.
  - apply preserves_bind; auto.
Qed.

Lemma preserves_and_then (a b : M bool) :
  preserves R a -> preserves R b -> preserves R (and_then a b).
Proof.
  intros Ha Hb. apply preserves_bind; [done |].
  intros [|]; [done | apply preserves_ret].
Qed.

End Preservation.

Lemma only_refl Q w : only Q w w.
Proof. exists []. split; [apply adds_nil | constructor]. Qed.

Lemma only_trans Q w1 w2 w3 : only Q w1 w2 -> only Q w2 w3 -> only Q w1 w3.
Proof.
  intros (t1 & H1 & F1) (t2 & H2 & F2). exists (t1 ++ t2).
  split; [by eapply adds_app | by apply Forall_app].
Qed.

(** ** Configuration emission *)

(** C1. For every non-empty project id and non-empty partner key,
    [create_config] hands [json.dump] a mapping, written to the fixed
    configuration path, whose [verification_token] is the partner key
    verbatim and whose [firebase_database_url] is
    [https://{project_id}.firebaseio.com]; once the write goes through the
    file holds that mapping, whatever it held before. *)
Theorem create_config_fields (env : Env) (project_id partner_key : string)
    (w : World) :
  project_id <> EmptyString ->
  partner_key <> EmptyString ->
  exists (config : gmap string json) o w',
    create_config env project_id partner_key w = (o, w')
    /\ adds w w' [EvPrint [JStr "Creating configuration file..."];
                  EvJsonDump "../resources/config.json" (JObj config)]
    /\ config !! "verification_token" = Some (JStr partner_key)
    /\ config !! "firebase_database_url"
       = Some (JStr ("https://" +:+ project_id +:+ ".firebaseio.com"))
    /\ config !! "use_firebase_for_credentials" = Some (JBool true)
    /\ config !! "firebase_service_account"
       = Some (JStr "generated_firebase_credentials.json")
    /\ (raises env (EvJsonDump "../resources/config.json" (JObj config)) = None ->
        o = Done tt
        /\ files w' !! "../resources/config.json" = Some (JObj config)).
Proof.
  intros _ _.
  unfold create_config, json_dump_to, call, print_str, print, bind, emit.
  cbv zeta.
  match goal with
  | |- context [EvJsonDump config_path (JObj ?c)] => set (config := c)
  end.
  exists config.
  destruct (raises env (EvJsonDump config_path (JObj config))) as [x |] eqn:E;
    do 2 eexists; (split; [reflexivity |]).
  - split; [unfold adds; simpl; by rewrite <- app_assoc |].
    repeat split; try (subst config; by simplify_map_eq);
      unfold config_path in E; congruence.
  - split; [unfold adds; simpl; by rewrite <- app_assoc |].
    repeat split; subst config; by simplify_map_eq.
Qed.

Lemma create_config_fields_witness :
  exists (config : gmap string json) o w',
    create_config
      {| exit_status := fun _ => 0; communicate := fun _ => (EmptyString, EmptyString);
         getcwd := "/srv/biab"; access_token := fun _ => Ok "token";
         post_json := fun _ _ => Ok JNull; execute := fun _ _ => Ok JNull;
         raises := fun _ => None |}
      "my-project" "s3cret"
      {| trace := []; stdin := []; polls := 0; files := ∅; db := ∅ |} = (o, w')
    /\ adds {| trace := []; stdin := []; polls := 0; files := ∅; db := ∅ |} w'
         [EvPrint [JStr "Creating configuration file..."];
          EvJsonDump "../resources/config.json" (JObj config)]
    /\ config !! "verification_token" = Some (JStr "s3cret")
    /\ config !! "firebase_database_url"
       = Some (JStr "https://my-project.firebaseio.com").
Proof.
  destruct (create_config_fields
              {| exit_status := fun _ => 0;
                 communicate := fun _ => (EmptyString, EmptyString);
                 getcwd := "/srv/biab"; access_token := fun _ => Ok "token";
                 post_json := fun _ _ => Ok JNull;
                 execute := fun _ _ => Ok JNull;
                 raises := fun _ => None |}
              "my-project" "s3cret"
              {| trace := []; stdin := []; polls := 0; files := ∅; db := ∅ |})
    as (config & o & w' & H1 & H2 & H3 & H4 & _);
    [discriminate | discriminate |].
  exists config, o, w'. auto.
Defined.

(** ** Database initialisation *)

Ltac run_script :=
  unfold bind, emit, ret, raise, lift, and_then, print_str, print; simpl.

Lemma error_code_inv response code :
  error_code response = Some code ->
  exists m e, response = JObj m /\ m !! "error" = Some (JObj e)
              /\ e !! "code" = Some code.
Proof.
  destruct response as [| | | | | | m]; try discriminate. simpl.
  destruct (m !! "error") as [[| | | | | | e] |] eqn:E; try discriminate.
  intros H. by exists m, e.
Qed.

(** C2. When the add-database call is answered with a 409 response,
    [initialize_firebase] completes without error after reporting that the
    entity exists: it polls nothing and writes no sentinel record. *)
Theorem initialize_firebase_conflict (env : Env) (fuel : nat)
    (project_id token : string) (response code : json) (w : World) :
  access_token env credentials_path = Ok token ->
  post_json env (add_firebase_uri project_id)
    [("Authorization", "Bearer " +:+ token)] = Ok response ->
  error_code response = Some code ->
  Py.eq_int code 409 = true ->
  exists w',
    initialize_firebase env fuel project_id w = (Done tt, w')
    /\ adds w w' (request_events project_id token
                  ++ [EvPrint [JStr "Firebase entity already exists"]])
    /\ polls w' = polls w
    /\ db w' = db w.
Proof.
  intros Htoken Hpost Hcode H409.
  apply error_code_inv in Hcode as (m & e & -> & Herror & Hcode).
  eexists. split.
  - unfold initialize_firebase, get_access_token, requests_post_json.
    run_script. rewrite Htoken. simpl. rewrite Hpost. simpl.
    rewrite Herror. simpl. rewrite Hcode. simpl. rewrite H409. reflexivity.
  - repeat split. unfold adds. simpl. by rewrite <- !app_assoc.
Qed.

(** C10. When the add-database response carries an error whose code is not
    409 and has no [name] member, [initialize_firebase] returns normally
    without a word: no polling, no sentinel record, no exception. *)
Theorem initialize_firebase_silent (env : Env) (fuel : nat)
    (project_id token : string) (response code : json) (w : World) :
  access_token env credentials_path = Ok token ->
  post_json env (add_firebase_uri project_id)
    [("Authorization", "Bearer " +:+ token)] = Ok response ->
  error_code response = Some code ->
  Py.eq_int code 409 = false ->
  ~ has_key "name" response ->
  exists w',
    initialize_firebase env fuel project_id w = (Done tt, w')
    /\ adds w w' (request_events project_id token)
    /\ polls w' = polls w
    /\ db w' = db w.
Proof.
  intros Htoken Hpost Hcode H409 Hname.
  apply error_code_inv in Hcode as (m & e & -> & Herror & Hcode).
  assert (m !! "name" = None) as Hnone.
  { destruct (m !! "name") as [v |] eqn:E; [| done].
    exfalso. apply Hname. by exists m, v. }
  eexists. split.
  - unfold initialize_firebase, get_access_token, requests_post_json.
    run_script. rewrite Htoken. simpl. rewrite Hpost. simpl.
    rewrite Herror. simpl. rewrite Hcode. simpl. rewrite H409.
    rewrite Hnone. reflexivity.
  - repeat split. unfold adds. simpl. by rewrite <- !app_assoc.
Qed.

(** *** The polling loop *)

Lemma after_after t1 n1 t2 n2 w :
  after t2 n2 (after t1 n1 w) = after (t1 ++ t2) (n1 + n2) w.
Proof.
  unfold after. simpl. f_equal; [by rewrite app_assoc | lia].
Qed.

Lemma after_nil w : after [] 0 w = w.
Proof.
  destruct w. unfold after. simpl. f_equal; [apply app_nil_r | lia].
Qed.

Lemma poll_once_pending env name w :
  pending (execute env name (polls w)) ->
  poll_once env name w = (Done Next, after [EvExecute name; EvSleep 1] 1 w).
Proof.
  intros (m & Hm & Herror & Hdone).
  unfold poll_once, request_execute. run_script. rewrite Hm. simpl.
  rewrite Herror. simpl.
  destruct Hdone as [Hdone | (d & Hdone & Hd)]; rewrite Hdone; simpl;
    rewrite ?Hd; unfold after, log; simpl; do 2 f_equal;
    solve [by rewrite <- app_assoc | lia].
Qed.

Lemma poll_once_done env name w :
  reports_done (execute env name (polls w)) ->
  no_error (execute env name (polls w)) ->
  poll_once env name w
  = (Done (Return tt),
     after [EvExecute name; EvPrint [JStr "Add Firebase operation completed."]]
       1 w).
Proof.
  intros (m & d & Hm & Hdone & Hd) Hno.
  assert (m !! "error" = None) as Herror.
  { destruct (m !! "error") as [v |] eqn:E; [| done].
    exfalso. apply (Hno v). by exists m. }
  unfold poll_once, request_execute. run_script. rewrite Hm. simpl.
  rewrite Herror. simpl. rewrite Hdone. simpl. rewrite Hd.
  unfold after, log; simpl; do 2 f_equal;
    solve [by rewrite <- app_assoc | lia].
Qed.

Lemma poll_once_error env name error w :
  reports_error error (execute env name (polls w)) ->
  poll_once env name w = (Raised (Exception error), after [EvExecute name] 1 w).
Proof.
  intros (m & Hm & Herror).
  unfold poll_once, request_execute. run_script. rewrite Hm. simpl.
  rewrite Herror. simpl. unfold after; do 2 f_equal; lia.
Qed.

Lemma while_True_pending env name n :
  forall fuel w,
    (forall i, (i < n)%nat -> pending (execute env name (polls w + i)%nat)) ->
    while_True (n + fuel) (poll_once env name) w
    = while_True fuel (poll_once env name) (after (poll_rounds name n) n w).
Proof.
  induction n as [| n IH]; intros fuel w Hpending.
  - by rewrite after_nil.
  - simpl. unfold bind at 1. rewrite poll_once_pending.
    + rewrite IH.
      * by rewrite after_after.
      * intros i Hi. simpl.
        replace (polls w + 1 + i)%nat with (polls w + S i)%nat by lia.
        apply Hpending. lia.
    + replace (polls w) with (polls w + 0)%nat by lia. apply Hpending. lia.
Qed.

Lemma wait_for_operation_loop env fuel name w :
  setup_succeeds env name ->
  wait_for_operation env fuel name w
  = while_True fuel (poll_once env name) (after (wait_setup name) 0 w).
Proof.
  intros (H1 & H2 & H3).
  unfold wait_for_operation, call. run_script. rewrite H1. simpl.
  rewrite H2. simpl. rewrite H3. simpl. f_equal.
  unfold after, log. simpl. f_equal; [by rewrite <- !app_assoc | lia].
Qed.

(** C4, as the loop is written.  Once its set-up calls have succeeded,
    [wait_for_operation] on answers of which the first [n] are pending
    and the next reports a true [done] and no [error] makes exactly
    [n + 1] polls, with a one-second sleep after each of the first [n],
    and returns; on answers that are pending for ever it never
    returns: whatever the bound on the iterations, it is still polling
    when the bound is reached. *)
Theorem wait_for_operation_polls (env : Env) (name : json) (w : World) :
  setup_succeeds env name ->
  (forall n fuel,
     (forall i, (i < n)%nat -> pending (execute env name (polls w + i)%nat)) ->
     reports_done (execute env name (polls w + n)%nat) ->
     no_error (execute env name (polls w + n)%nat) ->
     (n < fuel)%nat ->
     exists w',
       wait_for_operation env fuel name w = (Done tt, w')
       /\ polls w' = (polls w + S n)%nat
       /\ adds w w'
            (wait_setup name ++ poll_rounds name n
             ++ [EvExecute name;
                 EvPrint [JStr "Add Firebase operation completed."]]))
  /\ ((forall i, pending (execute env name (polls w + i)%nat)) ->
      forall fuel,
      exists w',
        wait_for_operation env fuel name w = (OutOfFuel, w')
        /\ polls w' = (polls w + fuel)%nat
        /\ adds w w' (wait_setup name ++ poll_rounds name fuel)).
Proof.
  intros Hsetup. split.
  - intros n fuel Hpending Hdone Hno Hfuel.
    rewrite wait_for_operation_loop by done.
    replace fuel with (n + S (fuel - S n))%nat by lia.
    rewrite while_True_pending
      by (intros i Hi; simpl; rewrite Nat.add_0_r; by apply Hpending).
    simpl. unfold bind at 1. rewrite poll_once_done.
    + rewrite !after_after. eexists. split; [reflexivity |].
      split; [simpl; lia |]. unfold adds. simpl. by rewrite <- ?app_assoc.
    + simpl. by rewrite Nat.add_0_r.
    + simpl. by rewrite Nat.add_0_r.
  - intros Hpending fuel.
    rewrite wait_for_operation_loop by done.
    pose proof (while_True_pending env name fuel 0
                  (after (wait_setup name) 0 w)) as Hloop.
    rewrite Nat.add_0_r in Hloop. rewrite Hloop
      by (intros i _; simpl; rewrite Nat.add_0_r; apply Hpending).
    simpl. rewrite after_after. eexists. split; [reflexivity |].
    split; [simpl; lia |]. unfold adds. simpl. by rewrite <- ?app_assoc.
Qed.

Lemma initialize_firebase_waits env fuel project_id token m name w :
  access_token env credentials_path = Ok token ->
  post_json env (add_firebase_uri project_id)
    [("Authorization", "Bearer " +:+ token)] = Ok (JObj m) ->
  not_conflict m ->
  m !! "name" = Some name ->
  initialize_firebase env fuel project_id w
  = bind (wait_for_operation env fuel name)
      (fun _ => write_sentinel env project_id)
      (after (request_events project_id token
              ++ [EvPrint [JStr "Operation name:"; name]]) 0 w).
Proof.
  intros Htoken Hpost Hconflict Hname.
  assert (forall w0, after (request_events project_id token
                       ++ [EvPrint [JStr "Operation name:"; name]]) 0 w
                     = w0 ->
          log (EvPrint [JStr "Operation name:"; name])
            (log (EvPost (add_firebase_uri project_id)
                    [("Authorization", "Bearer " +:+ token)])
               (log (EvAccessToken credentials_path)
                  (log (EvPrint [JStr "Initializing Firebase..."]) w)))
          = w0) as Hw.
  { intros w0 <-. unfold after, log. simpl.
    f_equal; [by rewrite <- !app_assoc | lia]. }
  unfold initialize_firebase, get_access_token, requests_post_json.
  run_script. rewrite Htoken. simpl. rewrite Hpost. simpl.
  destruct Hconflict as [Herror | (code & Hcode & H409)].
  - rewrite Herror. simpl. rewrite Hname. simpl.
    by rewrite (Hw _ eq_refl).
  - apply error_code_inv in Hcode as (m' & e & [= <-] & Herror & Hcode).
    rewrite Herror. simpl. rewrite Hcode. simpl. rewrite H409.
    rewrite Hname. simpl. by rewrite (Hw _ eq_refl).
Qed.

Lemma in_poll_rounds name n e :
  In e (poll_rounds name n) -> e = EvExecute name \/ e = EvSleep 1.
Proof.
  induction n as [| n IH]; simpl; [done |].
  intros [<- | [<- | H]]; auto.
Qed.

(** C3. When a poll of the operation is answered with a result that has
    an [error] member, [initialize_firebase] aborts by raising an
    exception that carries that member, and the sentinel record has not
    been written: the database is as it was and no write to it was
    attempted. *)
Theorem initialize_firebase_operation_error (env : Env) (fuel n : nat)
    (project_id token : string) (m : gmap string json) (name error : json)
    (w : World) :
  access_token env credentials_path = Ok token ->
  post_json env (add_firebase_uri project_id)
    [("Authorization", "Bearer " +:+ token)] = Ok (JObj m) ->
  not_conflict m ->
  m !! "name" = Some name ->
  setup_succeeds env name ->
  (forall i, (i < n)%nat -> pending (execute env name (polls w + i)%nat)) ->
  reports_error error (execute env name (polls w + n)%nat) ->
  (n < fuel)%nat ->
  exists w' t,
    initialize_firebase env fuel project_id w = (Raised (Exception error), w')
    /\ adds w w' t
    /\ (forall path value, ~ In (EvDbSet path value) t)
    /\ db w' = db w
    /\ polls w' = (polls w + S n)%nat.
Proof.
  intros Htoken Hpost Hconflict Hname Hsetup Hpending Herror Hfuel.
  rewrite (initialize_firebase_waits _ _ _ token m name) by done.
  unfold bind at 1. rewrite wait_for_operation_loop by done.
  replace fuel with (n + S (fuel - S n))%nat by lia.
  rewrite while_True_pending
    by (intros i Hi; simpl; rewrite !Nat.add_0_r; by apply Hpending).
  simpl. unfold bind at 1. rewrite (poll_once_error _ _ error)
    by (simpl; by rewrite !Nat.add_0_r).
  rewrite !after_after. do 2 eexists. split; [reflexivity |].
  split; [reflexivity |]. split; [| split; [reflexivity | simpl; lia]].
  intros path value Hin. simpl in Hin.
  repeat (destruct Hin as [Hin | Hin]; [discriminate |]).
  apply in_app_or in Hin as [Hin | Hin].
  - apply in_poll_rounds in Hin as [Hin | Hin]; discriminate.
  - simpl in Hin. destruct Hin as [Hin | []]. discriminate.
Qed.

(** ** Deployment *)

Lemma url_regex_marker :
  url_regex = Re.lit marker ++ [Re.GroupAnyPlus; Re.Lit "]"].
Proof. reflexivity. Qed.

Lemma match_here_lit a p s :
  Re.match_here (Re.lit a ++ p) (a +:+ s) = Re.match_here p s.
Proof.
  induction a as [| c a IH]; simpl; [done |].
  by rewrite Ascii.eqb_refl.
Qed.

Lemma match_here_lit_fail a p s :
  String.prefix a s = false -> Re.match_here (Re.lit a ++ p) s = None.
Proof.
  revert s. induction a as [| c a IH]; intros s; [by destruct s |].
  destruct s as [| d s]; [done |]. simpl.
  destruct (ascii_dec c d) as [<- | Hne].
  - rewrite Ascii.eqb_refl. apply IH.
  - intros _. apply Ascii.eqb_neq in Hne. by rewrite Hne.
Qed.

Lemma take_app body t : Re.take (String.length body) (body +:+ t) = body.
Proof. induction body as [| c body IH]; simpl; [by destruct t | by rewrite IH]. Qed.

Lemma drop_app body t j :
  Re.drop (String.length body + j) (body +:+ t) = Re.drop j t.
Proof. induction body as [| c body IH]; simpl; done. Qed.

Lemma dot_run_app body t :
  Text.has_char Text.LF body = false ->
  Re.dot_run (body +:+ t) = (String.length body + Re.dot_run t)%nat.
Proof.
  induction body as [| c body IH]; simpl; [done |].
  intros H. apply orb_false_elim in H as [Hc Hbody].
  rewrite Hc. by rewrite IH.
Qed.

(** No closing bracket on the rest of the line: the pattern's final ["]"]
    matches at none of the positions the group could still give back. *)
Lemma close_fails_on_line rest :
  Text.line_has "]" rest = false ->
  forall j, (j <= Re.dot_run rest)%nat ->
  Re.match_here [Re.Lit "]"] (Re.drop j rest) = None.
Proof.
  induction rest as [| d rest IH]; intros Hline j Hj.
  - by destruct j.
  - simpl in Hline, Hj.
    destruct (Ascii.eqb d Text.LF) eqn:Hlf.
    + assert (j = O) as -> by lia. cbn [Re.drop Re.match_here].
      apply Ascii.eqb_eq in Hlf as ->. reflexivity.
    + apply orb_false_elim in Hline as [Hd Hline].
      destruct j as [| j]; cbn [Re.drop Re.match_here].
      * rewrite Ascii.eqb_sym. by rewrite Hd.
      * apply IH; [done | lia].
Qed.

Lemma backtrack_to_last_bracket body rest j :
  body <> EmptyString ->
  Text.line_has "]" rest = false ->
  (j <= S (Re.dot_run rest))%nat ->
  Re.backtrack (Re.match_here [Re.Lit "]"]) (body +:+ String "]" rest)
    (String.length body + j)
  = Some [body].
Proof.
  intros Hbody Hline. induction j as [| j IH]; intros Hj.
  - rewrite Nat.add_0_r.
    pose proof (drop_app body (String "]" rest) 0) as Hdrop.
    rewrite Nat.add_0_r in Hdrop.
    destruct (String.length body) as [| k] eqn:Hlen;
      [by destruct body |].
    cbn [Re.backtrack]. rewrite Hdrop. cbn [Re.drop Re.match_here].
    rewrite Ascii.eqb_refl, <- Hlen. by rewrite take_app.
  - rewrite Nat.add_succ_r. cbn [Re.backtrack].
    rewrite <- Nat.add_succ_r, drop_app. cbn [Re.drop].
    rewrite close_fails_on_line by (done || lia).
    apply IH. lia.
Qed.

Lemma match_group body rest :
  body <> EmptyString ->
  Text.has_char Text.LF body = false ->
  Text.line_has "]" rest = false ->
  Re.match_here [Re.GroupAnyPlus; Re.Lit "]"] (body +:+ String "]" rest)
  = Some [body].
Proof.
  intros Hbody Hlf Hline. cbn [Re.match_here].
  rewrite dot_run_app by done. cbn [Re.dot_run].
  change (Ascii.eqb "]" Text.LF) with false. cbv iota.
  by apply backtrack_to_last_bracket.
Qed.

Lemma search_first_occurrence pre body rest :
  Text.find marker (pre +:+ marker +:+ body +:+ String "]" rest)
  = Some (String.length pre) ->
  body <> EmptyString ->
  Text.has_char Text.LF body = false ->
  Text.line_has "]" rest = false ->
  Re.search url_regex (pre +:+ marker +:+ body +:+ String "]" rest)
  = Some [body].
Proof.
  intros Hfind Hbody Hlf Hline. rewrite url_regex_marker.
  induction pre as [| c pre IH].
  - change (EmptyString +:+ ?s) with s.
    destruct (marker +:+ body +:+ String "]" rest) eqn:E;
      cbn [Re.search]; rewrite <- E, match_here_lit;
      by rewrite match_group.
  - change (String c pre +:+ ?s) with (String c (pre +:+ s)) in *.
    cbn [Text.find String.length] in Hfind.
    destruct (String.prefix marker (String c (pre +:+ marker +:+ body +:+ String "]" rest)))
      eqn:Hprefix; [discriminate |].
    cbn [Re.search]. rewrite match_here_lit_fail by done.
    apply IH.
    destruct (Text.find marker (pre +:+ marker +:+ body +:+ String "]" rest));
      simpl in Hfind; congruence.
Qed.

(** When the marker is nowhere in the log, the pattern does not match. *)
Lemma search_marker_absent log :
  Text.find marker log = None -> Re.search url_regex log = None.
Proof.
  rewrite url_regex_marker.
  induction log as [| c log IH]; cbn [Text.find Re.search]; intros Hfind.
  - destruct (String.prefix marker EmptyString) eqn:Hprefix; [discriminate |].
    by rewrite match_here_lit_fail.
  - destruct (String.prefix marker (String c log)) eqn:Hprefix; [discriminate |].
    rewrite match_here_lit_fail by done. apply IH.
    by destruct (Text.find marker log).
Qed.

(** C5, as the pattern matches.  When the first occurrence of
    [Deployed service [default] to [] in the deployment log is followed by
    a non-empty text [url] without line feed and a closing bracket after
    which the line has no other closing bracket, [deploy] returns exactly
    [url]: the captured text runs up to the last closing bracket of the
    line. *)
Theorem deploy_url_to_last_bracket (env : Env) (w : World)
    (out pre url rest : string) :
  communicate env "gcloud app deploy --quiet"
  = (out, pre +:+ marker +:+ url +:+ String "]" rest) ->
  Text.find marker (pre +:+ marker +:+ url +:+ String "]" rest)
  = Some (String.length pre) ->
  url <> EmptyString ->
  Text.has_char Text.LF url = false ->
  Text.line_has "]" rest = false ->
  exists w',
    deploy env w = (Done url, w')
    /\ adds w w'
         [EvPrint [JStr "Deploying. This may take several minutes..."];
          EvPopen "gcloud app deploy --quiet" (Some (getcwd env +:+ "/../"));
          EvPrint [JStr (pre +:+ marker +:+ url +:+ String "]" rest)]].
Proof.
  intros Hlog Hfind Hurl Hlf Hline.
  unfold deploy, popen_communicate. run_script. rewrite Hlog.
  rewrite search_first_occurrence by done. simpl.
  eexists. split; [reflexivity |]. unfold adds. simpl.
  by rewrite <- !app_assoc.
Qed.

Lemma deploy_url_to_last_bracket_witness :
  exists w',
    deploy calm_env (fresh []) = (Done "https://example.appspot.com", w').
Proof.
  destruct (deploy_url_to_last_bracket calm_env (fresh []) EmptyString
              ("Updating service [default]...done." +:+ Text.nl)
              "https://example.appspot.com"
              (Text.nl +:+ "You can stream logs from the command line"))
    as (w' & H & _); try reflexivity; [discriminate |].
  by exists w'.
Defined.

(** C5 fails as stated: a log that contains
    [Deployed service [default] to [https://example.appspot.com]] followed
    on the same line by another bracketed word makes [deploy] return more
    than the URL. *)
Lemma deploy_greedy_counterexample :
  let log := "Deployed service [default] to [https://example.appspot.com] [done]" in
  let env := with_output deploy_command (EmptyString, log) calm_env in
  Py.str_contains "Deployed service [default] to [https://example.appspot.com]" log
  = true
  /\ fst (deploy env (fresh [])) = Done "https://example.appspot.com] [done"
  /\ fst (deploy env (fresh [])) <> Done "https://example.appspot.com".
Proof.
  simpl. split; [reflexivity |]. split; [reflexivity | discriminate].
Qed.

(** C6, as the code fails.  When the pattern does not match the
    deployment log, [deploy] fails with the [TypeError] of subscripting
    the [None] that [re.search] returned. *)
Theorem deploy_no_match (env : Env) (w : World) :
  Re.search url_regex (snd (communicate env "gcloud app deploy --quiet")) = None ->
  exists w',
    deploy env w
    = (Raised (TypeError "'NoneType' object is not subscriptable"), w')
    /\ adds w w'
         [EvPrint [JStr "Deploying. This may take several minutes..."];
          EvPopen "gcloud app deploy --quiet" (Some (getcwd env +:+ "/../"));
          EvPrint [JStr (snd (communicate env "gcloud app deploy --quiet"))]].
Proof.
  intros Hsearch.
  unfold deploy, popen_communicate. run_script.
  destruct (communicate env "gcloud app deploy --quiet") as [out log].
  simpl in *. rewrite Hsearch. simpl.
  eexists. split; [reflexivity |]. unfold adds. simpl.
  by rewrite <- !app_assoc.
Qed.

Lemma deploy_no_match_witness :
  exists w',
    deploy (with_output deploy_command (EmptyString, "ERROR: build failed") calm_env)
      (fresh [])
    = (Raised (TypeError "'NoneType' object is not subscriptable"), w').
Proof.
  destruct (deploy_no_match
              (with_output deploy_command (EmptyString, "ERROR: build failed")
                 calm_env)
              (fresh [])) as (w' & H & _).
  - apply search_marker_absent. reflexivity.
  - by exists w'.
Defined.

(** C6 fails as stated: on a log without the pattern the failure is not an
    exception of the script's own that says the URL was not found, but the
    interpreter's [TypeError]. *)
Lemma deploy_no_match_counterexample :
  let env := with_output deploy_command (EmptyString, "ERROR: build failed") calm_env in
  Re.search url_regex (snd (communicate env deploy_command)) = None
  /\ fst (deploy env (fresh []))
     = Raised (TypeError "'NoneType' object is not subscriptable")
  /\ forall message, fst (deploy env (fresh [])) <> Raised (Exception message).
Proof.
  simpl. split; [reflexivity |]. split; [reflexivity | discriminate].
Qed.

(** ** Service account and key *)

Lemma create_key_is_not_create_account project_id :
  EvRun (create_key_argv project_id) <> EvRun create_account_argv.
Proof. discriminate. Qed.

Lemma create_key_is_not_add_role project_id :
  EvRun (create_key_argv project_id) <> EvRun (add_role_argv project_id).
Proof. discriminate. Qed.

(** C8, as the two guarded blocks are written.  [get_service_key] always
    returns normally, whatever the exit statuses of its three commands:
    the account creation and the role binding are always attempted, the
    key is minted exactly when the account creation succeeded, and a
    failing command is answered with a logged message. *)
Theorem get_service_key_best_effort (env : Env) (project_id : string)
    (w : World) :
  exists w' t,
    get_service_key env project_id w = (Done tt, w')
    /\ adds w w' t
    /\ In (EvRun create_account_argv) t
    /\ In (EvRun (add_role_argv project_id)) t
    /\ (In (EvRun (create_key_argv project_id)) t
        <-> exit_status env create_account_argv = 0)
    /\ (exit_status env create_account_argv <> 0 -> In account_failure_message t)
    /\ (In (EvRun (create_key_argv project_id)) t ->
        exit_status env (create_key_argv project_id) <> 0 ->
        In account_failure_message t)
    /\ (exit_status env (add_role_argv project_id) <> 0 ->
        In role_failure_message t).
Proof.
  pose proof (create_key_is_not_create_account project_id) as Hne1.
  pose proof (create_key_is_not_add_role project_id) as Hne2.
  unfold get_service_key, try_except_CalledProcessError, subprocess_run.
  run_script.
  destruct (exit_status env create_account_argv =? 0) eqn:Hcreate;
    [destruct (exit_status env (create_key_argv project_id) =? 0) eqn:Hkey |];
    destruct (exit_status env (add_role_argv project_id) =? 0) eqn:Hrole;
    simpl; do 2 eexists;
    (split; [reflexivity |]);
    (split; [unfold adds; simpl; rewrite <- ?app_assoc; reflexivity |]);
    rewrite ?Z.eqb_eq, ?Z.eqb_neq in *;
    unfold account_failure_message, role_failure_message;
    repeat split; simpl; intros; try tauto; try congruence;
    try (exfalso; intuition congruence).
Qed.

(** C8 fails as stated: when the account creation exits with an error,
    the key is not minted. *)
Lemma get_service_key_counterexample :
  let env :=
    with_exit_status
      (fun argv => if decide (argv = create_account_argv) then 1 else 0)
      calm_env in
  exit_status env create_account_argv <> 0
  /\ fst (get_service_key env "my-project" (fresh [])) = Done tt
  /\ ~ In (EvRun (create_key_argv "my-project"))
         (trace (snd (get_service_key env "my-project" (fresh [])))).
Proof.
  simpl. split; [discriminate |]. split; [reflexivity |].
  vm_compute. intros H. repeat (destruct H as [H | H]; [discriminate |]).
  done.
Qed.

(** ** Region selection *)

Lemma input_only_inputs prompt : preserves (only is_input) (input prompt).
Proof.
  intros w o w'. unfold input.
  destruct (stdin w); intros [= <- <-]; exists [EvInput prompt];
    (split; [reflexivity | repeat constructor; by exists prompt]).
Qed.

(** A [while] loop returns only with a value that fails its test. *)
Lemma while_exit {S} fuel (cond : S -> bool) (body : S -> M S) :
  forall s w r w',
    while fuel cond body s w = (Done r, w') -> cond r = false.
Proof.
  induction fuel as [| fuel IH]; intros s w r w'; simpl;
    destruct (cond s) eqn:Hcond; try discriminate;
    try (intros [= <- <-]; exact Hcond).
  unfold bind. destruct (body s w) as [[s' | e |] w1]; try discriminate.
  apply IH.
Qed.

Lemma str_in_In x l : Text.str_in x l = true -> In x l.
Proof.
  unfold Text.str_in. rewrite existsb_exists.
  intros (y & Hy & Heq). apply String.eqb_eq in Heq. by subst.
Qed.

Lemma set_region_cases (env : Env) (fuel : nat) (w : World) :
  exists o w' t,
    set_region env fuel w = (o, w')
    /\ adds w w' t
    /\ (snd (communicate env "gcloud app describe") = EmptyString ->
        o = Done tt /\ t = [EvPopen "gcloud app describe" None])
    /\ (forall argv, In (EvRun argv) t ->
        snd (communicate env "gcloud app describe") <> EmptyString
        /\ exists regions_list deploy_region,
             parse_regions
               (fst (communicate env "gcloud app regions list"))
             = Ok regions_list
             /\ In deploy_region regions_list
             /\ argv = ["gcloud"; "app"; "create";
                        "--region=" +:+ deploy_region])
    /\ (snd (communicate env "gcloud app describe") <> EmptyString ->
        o = Done tt ->
        exists deploy_region, In (EvRun (create_app_argv deploy_region)) t).
Proof.
  unfold set_region, popen_communicate. run_script.
  destruct (communicate env "gcloud app describe") as [out err].
  destruct err as [| c err]; simpl.
  { do 3 eexists. split; [reflexivity |]. split; [reflexivity |].
    split; [done |]. split; [| done].
    intros argv [H | []]. discriminate. }
  destruct (communicate env "gcloud app regions list") as [out' err'].
  simpl.
  destruct (parse_regions out') as [regions_list | e]; simpl.
  2:{ do 3 eexists. split; [reflexivity |].
      split; [unfold adds; simpl; by rewrite <- !app_assoc |].
      split; [done |]. split; [| done].
      intros argv H. simpl in H. intuition discriminate. }
  match goal with
  | |- context [while fuel ?cond ?body ?s ?w0] =>
      destruct (while fuel cond body s w0) as [[r | e |] w1] eqn:Hloop;
      pose proof (preserves_while (only is_input) (only_refl _)
                    (only_trans _) fuel cond body s
                    (fun _ => input_only_inputs _) _ _ _ Hloop)
        as (t1 & Ht1 & Hinputs)
  end.
  - apply while_exit in Hloop. apply negb_false_iff, str_in_In in Hloop.
    unfold subprocess_run. run_script.
    exists (if exit_status env (create_app_argv r) =? 0 then Done tt
            else Raised (CalledProcessError
                           (exit_status env (create_app_argv r))
                           (create_app_argv r))).
    exists (log (EvRun (create_app_argv r)) w1).
    exists ([EvPopen "gcloud app describe" None;
             EvPopen "gcloud app regions list" None;
             EvPrint [JStr (Text.nl +:+ "Regions:")];
             EvPrint [JStr (String.concat Text.nl regions_list)]]
            ++ t1 ++ [EvRun (create_app_argv r)]).
    split; [by destruct (exit_status env (create_app_argv r) =? 0) |].
    split.
    { unfold adds in *. simpl in *. rewrite Ht1. simpl.
      by rewrite <- !app_assoc. }
    split; [done |]. split.
    + intros argv Hin. split; [done |]. exists regions_list, r.
      split; [done |]. split; [done |].
      simpl in Hin. repeat (destruct Hin as [Hin | Hin]; [discriminate |]).
      apply in_app_or in Hin as [Hin | Hin].
      * rewrite Forall_forall in Hinputs.
        apply list_elem_of_In, Hinputs in Hin as (prompt & Hin).
        discriminate.
      * destruct Hin as [[= <-] | []]. reflexivity.
    + intros _ _. exists r. simpl. do 4 right.
      apply in_or_app. right. by left.
  - exists (Raised e), w1,
      ([EvPopen "gcloud app describe" None;
        EvPopen "gcloud app regions list" None;
        EvPrint [JStr (Text.nl +:+ "Regions:")];
        EvPrint [JStr (String.concat Text.nl regions_list)]] ++ t1).
    split; [reflexivity |]. split.
    { unfold adds in *. simpl in *. rewrite Ht1. by rewrite <- !app_assoc. }
    split; [done |]. split; [| done].
    intros argv Hin. exfalso. simpl in Hin.
    repeat (destruct Hin as [Hin | Hin]; [discriminate |]).
    rewrite Forall_forall in Hinputs.
    apply list_elem_of_In, Hinputs in Hin as (prompt & Hin). discriminate.
  - exists (OutOfFuel), w1,
      ([EvPopen "gcloud app describe" None;
        EvPopen "gcloud app regions list" None;
        EvPrint [JStr (Text.nl +:+ "Regions:")];
        EvPrint [JStr (String.concat Text.nl regions_list)]] ++ t1).
    split; [reflexivity |]. split.
    { unfold adds in *. simpl in *. rewrite Ht1. by rewrite <- !app_assoc. }
    split; [done |]. split; [| done].
    intros argv Hin. exfalso. simpl in Hin.
    repeat (destruct Hin as [Hin | Hin]; [discriminate |]).
    rewrite Forall_forall in Hinputs.
    apply list_elem_of_In, Hinputs in Hin as (prompt & Hin). discriminate.
Qed.



(** The words of [s.split()] are not empty. *)
Lemma split_ws_nonempty s : ~ In EmptyString (Text.split_ws s).
Proof.
  induction s as [| c rest IH]; [by intros [] |].
  cbn [Text.split_ws]. cbv zeta.
  destruct (Text.is_space c); [done |].
  destruct rest as [| d rest']; [by intros [H | []] |].
  destruct (Text.is_space d).
  - intros [H | H]; [discriminate | done].
  - destruct (Text.split_ws (String d rest')) as [| word words].
    + by intros [H | []].
    + intros [H | H]; [discriminate |]. apply IH. by right.
Qed.

Lemma map_result_In {A B} (f : A -> result B) l ys y :
  map_result f l = Ok ys -> In y ys -> exists x, In x l /\ f x = Ok y.
Proof.
  revert ys. induction l as [| x l IH]; intros ys; simpl.
  - by intros [= <-] [].
  - destruct (f x) as [y0 |] eqn:Hx; [| discriminate].
    destruct (map_result f l) as [ys0 |]; [| discriminate].
    intros [= <-] [<- | Hin].
    + exists x. by split; [left |].
    + destruct (IH ys0 eq_refl Hin) as (x' & Hx' & Hf).
      exists x'. by split; [right |].
Qed.










(** ** Orchestration *)

Lemma block_refl X w : block X w w.
Proof. exists [], O. split; [apply adds_nil | done]. Qed.

Lemma block_trans X w1 w2 w3 : block X w1 w2 -> block X w2 w3 -> block X w1 w3.
Proof.
  intros (t1 & n1 & H1 & E1) (t2 & n2 & H2 & E2).
  exists (t1 ++ t2), (n1 + n2)%nat. split; [by eapply adds_app |].
  by rewrite omap_app, E1, E2, replicate_add.
Qed.

Lemma compress_replicate X n l :
  compress (replicate (S n) X ++ l) = compress (X :: l).
Proof.
  induction n as [| n IH]; [done |].
  change (replicate (S (S n)) X ++ l) with (X :: (replicate (S n) X ++ l)).
  cbn [compress]. rewrite IH. cbn [compress].
  destruct (compress l) as [| y done]; [by rewrite decide_True |].
  destruct (decide (X = y)) as [-> | Hne]; by rewrite decide_True.
Qed.

Lemma block_log X e w : in_step X e -> block X w (log e w).
Proof.
  intros [H | H].
  - exists [e], O. split; [apply adds_log |]. simpl. by rewrite H.
  - exists [e], 1%nat. split; [apply adds_log |]. simpl. by rewrite H.
Qed.

Section Blocks.

Context (env : Env) (X : Step).

Lemma block_ret {A} (a : A) : preserves (block X) (ret a).
Proof. apply preserves_ret, block_refl. Qed.

Lemma block_raise {A} e : preserves (block X) (@raise A e).
Proof. apply preserves_raise, block_refl. Qed.

Lemma block_lift {A} (r : result A) : preserves (block X) (lift r).
Proof. apply preserves_lift, block_refl. Qed.

Lemma block_bind {A B} (c : M A) (k : A -> M B) :
  preserves (block X) c -> (forall a, preserves (block X) (k a)) ->
  preserves (block X) (bind c k).
Proof. apply preserves_bind, block_trans. Qed.

Lemma block_and_then a b :
  preserves (block X) a -> preserves (block X) b ->
  preserves (block X) (and_then a b).
Proof. apply preserves_and_then; [apply block_refl | apply block_trans]. Qed.

Lemma block_try {A} (body handler : M A) :
  preserves (block X) body -> preserves (block X) handler ->
  preserves (block X) (try_except_CalledProcessError body handler).
Proof. apply preserves_try, block_trans. Qed.

Lemma block_while {S} fuel (cond : S -> bool) (body : S -> M S) s :
  (forall x, preserves (block X) (body x)) ->
  preserves (block X) (while fuel cond body s).
Proof. apply preserves_while; [apply block_refl | apply block_trans]. Qed.

Lemma block_while_True {A} fuel (body : M (flow A)) :
  preserves (block X) body -> preserves (block X) (while_True fuel body).
Proof. apply preserves_while_True; [apply block_refl | apply block_trans]. Qed.

Lemma block_for_each {A} (l : list A) (body : A -> M unit) :
  (forall x, preserves (block X) (body x)) ->
  preserves (block X) (for_each l body).
Proof. apply preserves_for_each; [apply block_refl | apply block_trans]. Qed.

Lemma block_emit e : in_step X e -> preserves (block X) (emit e).
Proof. intros H w o w' [= <- <-]. by apply block_log. Qed.

Lemma block_print args : preserves (block X) (print args).
Proof. apply block_emit. by left. Qed.

Lemma block_print_str s : preserves (block X) (print_str s).
Proof. apply block_print. Qed.

Lemma block_input prompt :
  in_step X (EvInput prompt) -> preserves (block X) (input prompt).
Proof.
  intros H w o w'. unfold input.
  destruct (stdin w); intros [= <- <-]; by apply (block_log X _ w).
Qed.

Lemma block_subprocess_run argv :
  in_step X (EvRun argv) -> preserves (block X) (subprocess_run env argv).
Proof.
  intros H. apply block_bind; [by apply block_emit |]. intros _.
  cbv zeta.
  destruct (exit_status env argv =? 0); [apply block_ret | apply block_raise].
Qed.

Lemma block_popen cmd cwd :
  in_step X (EvPopen cmd cwd) ->
  preserves (block X) (popen_communicate env cmd cwd).
Proof.
  intros H. apply block_bind; [by apply block_emit |]. intros _.
  apply block_ret.
Qed.

Lemma block_call e : in_step X e -> preserves (block X) (call env e).
Proof.
  intros H. apply block_bind; [by apply block_emit |]. intros _.
  destruct (raises env e); [apply block_raise | apply block_ret].
Qed.

Lemma block_request_execute name :
  in_step X (EvExecute name) ->
  preserves (block X) (request_execute env name).
Proof.
  intros H w o w'. unfold request_execute.
  destruct (execute env name (polls w)); intros [= <- <-];
    destruct (block_log X _ w H) as (t & n & Ht & Hn); by exists t, n.
Qed.

Lemma block_db_reference_set path value :
  in_step X (EvDbSet path value) ->
  preserves (block X) (db_reference_set env path value).
Proof.
  intros H. apply block_bind; [by apply block_call |]. intros _.
  intros w o w' [= <- <-]. exists [], O. split; [| done].
  unfold adds. simpl. by rewrite app_nil_r.
Qed.

Lemma block_json_dump_to path value :
  in_step X (EvJsonDump path value) ->
  preserves (block X) (json_dump_to env path value).
Proof.
  intros H. apply block_bind; [by apply block_call |]. intros _.
  intros w o w' [= <- <-]. exists [], O. split; [| done].
  unfold adds. simpl. by rewrite app_nil_r.
Qed.

(** *** Computations that start a step *)

Lemma carries_out_emit {A} e (k : unit -> M A) :
  step_of e = Some X -> preserves (block X) (k tt) ->
  carries_out X (bind (emit e) k).
Proof.
  intros He Hk w o w' H. unfold bind, emit in H.
  apply Hk in H as (t & n & Ht & Hn). exists (e :: t), n. split.
  - unfold adds in *. rewrite Ht. simpl. by rewrite <- app_assoc.
  - change (e :: t) with ([e] ++ t). rewrite omap_app, Hn.
    cbn [omap list_omap]. by rewrite He.
Qed.

Lemma carries_out_after_print {A} args (c : M A) :
  carries_out X c -> carries_out X (bind (print args) (fun _ => c)).
Proof.
  intros Hc w o w' H. unfold bind, print, emit in H.
  apply Hc in H as (t & n & Ht & Hn). exists (EvPrint args :: t), n. split.
  - unfold adds in *. rewrite Ht. simpl. by rewrite <- app_assoc.
  - done.
Qed.

Lemma carries_out_bind {A B} (c : M A) (k : A -> M B) :
  carries_out X c -> (forall a, preserves (block X) (k a)) ->
  carries_out X (bind c k).
Proof.
  intros Hc Hk w o w'. unfold bind.
  destruct (c w) as [[a | e |] w1] eqn:E; intros H.
  - apply Hc in E as (t1 & n1 & Ht1 & Hn1).
    apply Hk in H as (t2 & n2 & Ht2 & Hn2).
    exists (t1 ++ t2), (n1 + n2)%nat. split; [by eapply adds_app |].
    rewrite omap_app, Hn1, Hn2.
    by rewrite <- replicate_add.
  - injection H as <- <-. eapply Hc, E.
  - injection H as <- <-. eapply Hc, E.
Qed.

Lemma carries_out_try {A} (body handler : M A) :
  carries_out X body -> preserves (block X) handler ->
  carries_out X (try_except_CalledProcessError body handler).
Proof.
  intros Hb Hh w o w'. unfold try_except_CalledProcessError.
  destruct (body w) as [[a | e |] w1] eqn:E; intros H;
    try (injection H as <- <-; eapply Hb, E).
  destruct e; try (injection H as <- <-; eapply Hb, E).
  apply Hb in E as (t1 & n1 & Ht1 & Hn1).
  apply Hh in H as (t2 & n2 & Ht2 & Hn2).
  exists (t1 ++ t2), (n1 + n2)%nat. split; [by eapply adds_app |].
  rewrite omap_app, Hn1, Hn2. by rewrite <- replicate_add.
Qed.

Lemma carries_out_subprocess_run argv :
  step_of (EvRun argv) = Some X -> carries_out X (subprocess_run env argv).
Proof.
  intros H. apply carries_out_emit; [done |].
  cbv zeta.
  destruct (exit_status env argv =? 0); [apply block_ret | apply block_raise].
Qed.

Lemma carries_out_popen cmd cwd :
  step_of (EvPopen cmd cwd) = Some X ->
  carries_out X (popen_communicate env cmd cwd).
Proof. intros H. apply carries_out_emit; [done | apply block_ret]. Qed.

Lemma carries_out_call e :
  step_of e = Some X -> carries_out X (call env e).
Proof.
  intros H. apply carries_out_emit; [done |].
  destruct (raises env e); [apply block_raise | apply block_ret].
Qed.

End Blocks.

Ltac in_step_tac := first [by left | by right].

Ltac block_tac :=
  repeat first
    [ apply block_ret | apply block_raise | apply block_lift
    | apply block_print_str | apply block_print
    | apply block_emit; in_step_tac
    | apply block_input; in_step_tac
    | apply block_subprocess_run; in_step_tac
    | apply block_popen; in_step_tac
    | apply block_call; in_step_tac
    | apply block_request_execute; in_step_tac
    | apply block_db_reference_set; in_step_tac
    | apply block_json_dump_to; in_step_tac
    | apply block_and_then | apply block_try | apply block_while
    | apply block_while_True | apply block_for_each | apply block_bind
    | match goal with
      | |- forall _, _ => intros ?
      | |- preserves _ (if ?b then _ else _) => destruct b
      | |- preserves _ (match ?x with _ => _ end) => destruct x
      | |- preserves _ (let _ := _ in _) => cbv zeta
      end ].

Lemma set_region_step env fuel :
  carries_out RegionSelection (set_region env fuel).
Proof.
  unfold set_region.
  apply carries_out_bind; [by apply carries_out_popen | block_tac].
Qed.

Lemma enable_apis_step env : carries_out ApiEnablement (enable_apis env).
Proof.
  unfold enable_apis, print_str. apply carries_out_after_print.
  cbn [apis_to_enable for_each].
  apply carries_out_bind; [| block_tac].
  apply carries_out_after_print. by apply carries_out_subprocess_run.
Qed.

Lemma get_service_key_step env project_id :
  carries_out ServiceAccountProvisioning (get_service_key env project_id).
Proof.
  unfold get_service_key, print_str. apply carries_out_after_print.
  apply carries_out_bind; [| block_tac].
  apply carries_out_try; [| block_tac].
  apply carries_out_bind; [| block_tac].
  by apply carries_out_subprocess_run.
Qed.

Lemma initialize_firebase_step env fuel project_id :
  carries_out DatabaseInitialization (initialize_firebase env fuel project_id).
Proof.
  unfold initialize_firebase, print_str. apply carries_out_after_print.
  apply carries_out_bind.
  - unfold get_access_token. apply carries_out_emit; [done | block_tac].
  - intros token. cbv zeta. unfold requests_post_json. block_tac.
Qed.

Lemma create_config_step env project_id partner_key :
  carries_out ConfigurationEmission (create_config env project_id partner_key).
Proof.
  unfold create_config, print_str. apply carries_out_after_print.
  cbv zeta. unfold json_dump_to.
  apply carries_out_bind; [by apply carries_out_call |].
  intros _ w o w' [= <- <-]. exists [], O. split; [| done].
  unfold adds. simpl. by rewrite app_nil_r.
Qed.

Lemma deploy_step env : carries_out Deployment (deploy env).
Proof.
  unfold deploy, print_str. apply carries_out_after_print.
  apply carries_out_bind; [by apply carries_out_popen | block_tac].
Qed.

Lemma bind_Done_inv {A B} (c : M A) (k : A -> M B) w b w'' :
  bind c k w = (Done b, w'') ->
  exists a w', c w = (Done a, w') /\ k a w' = (Done b, w'').
Proof.
  unfold bind. destruct (c w) as [[a | e |] w']; try discriminate.
  intros H. by exists a, w'.
Qed.

(** A prompt loop that returns has read empty lines and then a non-empty
    one, which it returns, asking once for every line read. *)
Lemma prompt_until_nonempty fuel prompt :
  forall w r w',
    while fuel (fun s => negb (Py.str_truthy s)) (fun _ => input prompt)
      EmptyString w = (Done r, w') ->
    r <> EmptyString
    /\ exists n,
         stdin w = replicate n EmptyString ++ r :: stdin w'
         /\ adds w w' (replicate (S n) (EvInput prompt)).
Proof.
  induction fuel as [| fuel IH]; intros w r w'; [discriminate |].
  cbn [while Py.str_truthy negb]. unfold bind at 1, input at 1.
  destruct (stdin w) as [| line lines] eqn:Hstdin; [discriminate |].
  destruct line as [| c line].
  - intros H. apply IH in H as (Hr & n & Hn & Ht). split; [done |].
    exists (S n). simpl in *. split; [by rewrite Hn |].
    unfold adds in *. simpl in *. rewrite Ht. by rewrite <- app_assoc.
  - destruct fuel; cbn [while Py.str_truthy negb]; intros [= <- <-];
      (split; [done |]); by exists O.
Qed.

Lemma append_assoc (a b c : string) : (a +:+ b) +:+ c = a +:+ b +:+ c.
Proof.
  induction a as [| x a IH]; [done |].
  change (String x ((a +:+ b) +:+ c) = String x (a +:+ b +:+ c)).
  by f_equal.
Qed.

(** C7, in the order of the code.  A run of [main] that completes has
    asked for the project id, then for the partner key, each until the
    line read was not empty; it has then set the active project and
    carried out, in this order, region selection, API enablement,
    service-account and key provisioning, database initialisation,
    configuration emission and deployment; and the last thing it did was
    to print the summary, which contains the URL that [deploy] extracted
    and the rules-console URL made from the project id. *)
Theorem main_runs_in_order (env : Env) (fuel : nat) (w w' : World) :
  main env fuel w = (Done tt, w') ->
  exists (project_id partner_key deployed_url : string) (n1 n2 : nat)
         (lines : list string) (t : list Event),
    project_id <> EmptyString
    /\ partner_key <> EmptyString
    /\ stdin w
       = replicate n1 EmptyString ++ project_id
         :: replicate n2 EmptyString ++ partner_key :: lines
    /\ adds w w'
         (replicate (S n1)
            (EvInput "Google Cloud Project ID (not necessarily project name): ")
          ++ replicate (S n2) (EvInput "Partner key from Google: ")
          ++ [EvPrint [JStr "Setting Active Project ID to:"; JStr project_id];
              EvRun ["gcloud"; "config"; "set"; "project"; project_id]]
          ++ t
          ++ [EvPrint [JStr (Text.nl +:+ Text.nl +:+ Text.nl +:+ "---")];
              EvPrint [JStr (summary deployed_url project_id)]])
    /\ phases t
       = [RegionSelection; ApiEnablement; ServiceAccountProvisioning;
          DatabaseInitialization; ConfigurationEmission; Deployment]
    /\ group_1 (Re.search url_regex
                  (snd (communicate env "gcloud app deploy --quiet")))
       = Ok deployed_url
    /\ exists a b c,
         summary deployed_url project_id
         = a +:+ deployed_url +:+ b
           +:+ "https://console.firebase.google.com/project/" +:+ project_id
           +:+ "/database/" +:+ project_id +:+ "/rules" +:+ c.
Proof.
  intros H. unfold main in H.
  apply bind_Done_inv in H as (project_id & w1 & Hid & H).
  apply bind_Done_inv in H as (partner_key & w2 & Hkey & H).
  apply bind_Done_inv in H as ([] & w3 & Hprint & H).
  apply bind_Done_inv in H as ([] & w4 & Hproject & H).
  apply bind_Done_inv in H as ([] & w5 & Hregion & H).
  apply bind_Done_inv in H as ([] & w6 & Hapis & H).
  apply bind_Done_inv in H as ([] & w7 & Haccount & H).
  apply bind_Done_inv in H as ([] & w8 & Hdb & H).
  apply bind_Done_inv in H as ([] & w9 & Hconfig & H).
  apply bind_Done_inv in H as (deployed_url & w10 & Hdeploy & H).
  apply bind_Done_inv in H as ([] & w11 & Hdashes & Hsummary).
  apply prompt_until_nonempty in Hid as (Hid & n1 & Hin1 & Ht1).
  apply prompt_until_nonempty in Hkey as (Hkey & n2 & Hin2 & Ht2).
  injection Hprint as <-.
  assert (w4 = log (EvRun ["gcloud"; "config"; "set"; "project"; project_id])
                 (log (EvPrint [JStr "Setting Active Project ID to:";
                                JStr project_id]) w2)) as ->.
  { unfold subprocess_run in Hproject. revert Hproject. run_script.
    destruct (_ =? 0); by intros [= <-]. }
  clear Hproject.
  assert (group_1 (Re.search url_regex
                     (snd (communicate env "gcloud app deploy --quiet")))
          = Ok deployed_url) as Hurl.
  { revert Hdeploy. unfold deploy, popen_communicate. run_script.
    destruct (communicate env "gcloud app deploy --quiet") as [out log].
    simpl. destruct (group_1 _); simpl; by intros [= <- _]. }
  apply set_region_step in Hregion as (t5 & m5 & Ht5 & Hm5).
  apply enable_apis_step in Hapis as (t6 & m6 & Ht6 & Hm6).
  apply get_service_key_step in Haccount as (t7 & m7 & Ht7 & Hm7).
  apply initialize_firebase_step in Hdb as (t8 & m8 & Ht8 & Hm8).
  apply create_config_step in Hconfig as (t9 & m9 & Ht9 & Hm9).
  apply deploy_step in Hdeploy as (t10 & m10 & Ht10 & Hm10).
  injection Hdashes as <-. injection Hsummary as <-.
  exists project_id, partner_key, deployed_url, n1, n2, (stdin w2),
    (t5 ++ t6 ++ t7 ++ t8 ++ t9 ++ t10).
  split; [done |]. split; [done |].
  split; [by rewrite Hin1, Hin2 |].
  split.
  { unfold adds in *. simpl in *.
    rewrite Ht10, Ht9, Ht8, Ht7, Ht6, Ht5. simpl. rewrite Ht2, Ht1.
    simpl. by rewrite <- !app_assoc. }
  split.
  { unfold phases. rewrite !omap_app, Hm5, Hm6, Hm7, Hm8, Hm9, Hm10.
    rewrite <- (app_nil_r (replicate (S m10) Deployment)).
    repeat (rewrite compress_replicate; cbn [compress]). reflexivity. }
  split; [done |].
  exists (Text.nl +:+ "    Link to Administration console: "),
    ("/admin." +:+ Text.nl +:+ "    Link to Firebase Rules: "),
    (Text.nl
     +:+ "    Please follow the instructions in the README of the parent directory."
     +:+ Text.nl +:+ "    ").
  unfold summary, rules_url. by rewrite !append_assoc.
Qed.

(** ** The theorems at work on sample runs *)

Lemma initialize_firebase_conflict_witness :
  exists w',
    initialize_firebase (with_response conflict_response calm_env) 3
      "my-project" (fresh []) = (Done tt, w')
    /\ polls w' = O /\ db w' = ∅.
Proof.
  destruct (initialize_firebase_conflict
              (with_response conflict_response calm_env) 3 "my-project"
              "ya29.token" conflict_response (JInt 409) (fresh []))
    as (w' & H & _ & Hpolls & Hdb); try reflexivity.
  by exists w'.
Defined.

Lemma initialize_firebase_silent_witness :
  exists w',
    initialize_firebase (with_response denied_response calm_env) 3
      "my-project" (fresh []) = (Done tt, w')
    /\ polls w' = O /\ db w' = ∅.
Proof.
  destruct (initialize_firebase_silent
              (with_response denied_response calm_env) 3 "my-project"
              "ya29.token" denied_response (JInt 403) (fresh []))
    as (w' & H & _ & Hpolls & Hdb); try reflexivity.
  - intros (m & v & [= <-] & Hname). vm_compute in Hname. discriminate.
  - by exists w'.
Defined.

Lemma initialize_firebase_operation_error_witness :
  exists w',
    initialize_firebase (with_answers fails_at_second_poll calm_env) 5
      "my-project" (fresh []) = (Raised (Exception internal_error), w')
    /\ db w' = ∅ /\ polls w' = 2%nat.
Proof.
  destruct (initialize_firebase_operation_error
              (with_answers fails_at_second_poll calm_env) 5 1 "my-project"
              "ya29.token" {[ "name" := operation_name ]} operation_name
              internal_error (fresh []))
    as (w' & t & H & _ & _ & Hdb & Hpolls); try reflexivity.
  - by left.
  - by repeat split.
  - intros i Hi. assert (i = O) as -> by lia.
    exists ∅. split; [reflexivity |]. split; [reflexivity | by left].
  - eexists. split; reflexivity.
  - lia.
  - by exists w'.
Defined.

Lemma wait_for_operation_polls_witness :
  (exists w',
     wait_for_operation (with_answers done_at_third_poll calm_env) 5
       operation_name (fresh []) = (Done tt, w')
     /\ polls w' = 3%nat)
  /\ (forall fuel, exists w',
        wait_for_operation (with_answers never_done calm_env) fuel
          operation_name (fresh []) = (OutOfFuel, w')
        /\ polls w' = fuel).
Proof.
  split.
  - destruct (wait_for_operation_polls (with_answers done_at_third_poll calm_env)
                operation_name (fresh [])) as [Hdone _]; [by repeat split |].
    destruct (Hdone 2%nat 5%nat) as (w' & H & Hpolls & _).
    + intros i Hi.
      exists {[ "done" := JBool false ]}.
      destruct i as [| [| i]]; [| | lia];
        (split; [reflexivity |]); (split; [reflexivity |]);
        right; by exists (JBool false).
    + exists {[ "done" := JBool true ]}, (JBool true). by repeat split.
    + intros error (m & [= <-] & Hm). vm_compute in Hm. discriminate.
    + lia.
    + by exists w'.
  - intros fuel.
    destruct (wait_for_operation_polls (with_answers never_done calm_env)
                operation_name (fresh [])) as [_ Hloop]; [by repeat split |].
    destruct (Hloop (fun i => ex_intro _ ∅
                (conj eq_refl (conj eq_refl (or_introl eq_refl)))) fuel)
      as (w' & H & Hpolls & _).
    by exists w'.
Defined.

(** C4 fails as stated: the second poll is the first to report
    [done: true] and the poll before it has no [error] member, yet the
    loop does not return: the second answer also has an [error] member,
    and the loop raises. *)
Lemma wait_for_operation_counterexample :
  let env := with_answers done_with_error_at_second_poll calm_env in
  pending (execute env operation_name 0)
  /\ reports_done (execute env operation_name 1)
  /\ fst (wait_for_operation env 5 operation_name (fresh []))
     = Raised (Exception internal_error)
  /\ polls (snd (wait_for_operation env 5 operation_name (fresh []))) = 2%nat.
Proof.
  simpl. split.
  { exists ∅. split; [reflexivity |]. split; [reflexivity | by left]. }
  split.
  { exists (<["done" := JBool true]> {[ "error" := internal_error ]}),
      (JBool true).
    by repeat split. }
  split; reflexivity.
Qed.

Lemma main_runs_in_order_witness :
  exists t,
    adds (fresh [EmptyString; "my-project"; "s3cret"; "mars"; "us-central"])
      (snd (main new_project_env 5
              (fresh [EmptyString; "my-project"; "s3cret"; "mars"; "us-central"])))
      (replicate 2
         (EvInput "Google Cloud Project ID (not necessarily project name): ")
       ++ replicate 1 (EvInput "Partner key from Google: ")
       ++ [EvPrint [JStr "Setting Active Project ID to:"; JStr "my-project"];
           EvRun ["gcloud"; "config"; "set"; "project"; "my-project"]]
       ++ t
       ++ [EvPrint [JStr (Text.nl +:+ Text.nl +:+ Text.nl +:+ "---")];
           EvPrint [JStr (summary "https://example.appspot.com" "my-project")]])
    /\ phases t
       = [RegionSelection; ApiEnablement; ServiceAccountProvisioning;
          DatabaseInitialization; ConfigurationEmission; Deployment].
Proof.
  destruct (main_runs_in_order new_project_env 5
              (fresh [EmptyString; "my-project"; "s3cret"; "mars"; "us-central"])
              (snd (main new_project_env 5
                      (fresh [EmptyString; "my-project"; "s3cret"; "mars";
                              "us-central"]))))
    as (project_id & partner_key & deployed_url & n1 & n2 & lines & t
        & _ & _ & Hstdin & Hadds & Hphases & Hurl & _);
    [by vm_compute |].
  exists t. split; [| done].
  injection Hurl as <-.
  destruct n1 as [| [| n1]]; [discriminate | | by destruct n1].
  injection Hstdin as <- Hstdin.
  destruct n2 as [| n2]; [| discriminate].
  by injection Hstdin as <- _.
Defined.

(** C7 fails as stated: in a complete run the APIs are enabled after the
    region has been selected, not before. *)
Lemma main_order_counterexample :
  let w := fresh ["my-project"; "s3cret"; "us-central"] in
  fst (main new_project_env 5 w) = Done tt
  /\ phases (trace (snd (main new_project_env 5 w)))
     = [Prompting; ProjectSetting; RegionSelection; ApiEnablement;
        ServiceAccountProvisioning; DatabaseInitialization;
        ConfigurationEmission; Deployment]
  /\ occurs_before ApiEnablement RegionSelection
       (phases (trace (snd (main new_project_env 5 w)))) = false.
Proof. by vm_compute. Qed.

(** * Further properties *)

(** ** Invariants through sequencing, loops and calls *)

Lemma lift_world {A} (r : result A) w o w' : lift r w = (o, w') -> w' = w.
Proof. destruct r; by intros [= _ <-]. Qed.

Section Invariants.

Context {P : Event -> Prop} {R : World -> World -> Prop}.
Context (I : Invariant P R) (env : Env).

Lemma inv_ret {A} (a : A) : preserves R (ret a).
Proof. apply preserves_ret, I. Qed.

Lemma inv_raise {A} e : preserves R (@raise A e).
Proof. apply preserves_raise, I. Qed.

Lemma inv_lift {A} (r : result A) : preserves R (lift r).
Proof. apply preserves_lift, I. Qed.

Lemma inv_bind {A B} (c : M A) (k : A -> M B) :
  preserves R c -> (forall a, preserves R (k a)) -> preserves R (bind c k).
Proof. apply preserves_bind, I. Qed.

Lemma inv_and_then a b :
  preserves R a -> preserves R b -> preserves R (and_then a b).
Proof. apply preserves_and_then; apply I. Qed.

Lemma inv_try {A} (body handler : M A) :
  preserves R body -> preserves R handler ->
  preserves R (try_except_CalledProcessError body handler).
Proof. apply preserves_try, I. Qed.

Lemma inv_while {S} fuel (cond : S -> bool) (body : S -> M S) s :
  (forall x, preserves R (body x)) -> preserves R (while fuel cond body s).
Proof. apply preserves_while; apply I. Qed.

Lemma inv_while_True {A} fuel (body : M (flow A)) :
  preserves R body -> preserves R (while_True fuel body).
Proof. apply preserves_while_True; apply I. Qed.

Lemma inv_for_each {A} (l : list A) (body : A -> M unit) :
  (forall x, preserves R (body x)) -> preserves R (for_each l body).
Proof. apply preserves_for_each; apply I. Qed.

Lemma inv_emit e : P e -> preserves R (emit e).
Proof. intros H w o w' [= <- <-]. by apply (inv_step _ _ I e). Qed.

Lemma inv_input prompt : P (EvInput prompt) -> preserves R (input prompt).
Proof.
  intros H w o w'. unfold input.
  destruct (stdin w); intros [= <- <-]; by apply (inv_step _ _ I (EvInput prompt)).
Qed.

Lemma inv_subprocess_run argv :
  P (EvRun argv) -> preserves R (subprocess_run env argv).
Proof.
  intros H. apply inv_bind; [by apply inv_emit |]. intros _. cbv zeta.
  destruct (exit_status env argv =? 0); [apply inv_ret | apply inv_raise].
Qed.

Lemma inv_popen cmd cwd :
  P (EvPopen cmd cwd) -> preserves R (popen_communicate env cmd cwd).
Proof.
  intros H. apply inv_bind; [by apply inv_emit |]. intros _. apply inv_ret.
Qed.

Lemma inv_call e : P e -> preserves R (call env e).
Proof.
  intros H. apply inv_bind; [by apply inv_emit |]. intros _.
  destruct (raises env e); [apply inv_raise | apply inv_ret].
Qed.

Lemma inv_request_execute name :
  P (EvExecute name) -> preserves R (request_execute env name).
Proof.
  intros H w o w'. unfold request_execute.
  destruct (execute env name (polls w)); intros [= <- <-];
    by apply (inv_step _ _ I (EvExecute name)).
Qed.

End Invariants.

(** Carries an invariant through a computation; [special] is tried first
    on every sub-computation and [side] proves that an event is allowed. *)
Ltac inv_tac I special side :=
  repeat first
    [ special
    | apply (inv_ret I) | apply (inv_raise I) | apply (inv_lift I)
    | apply (inv_emit I); side
    | apply (inv_input I); side
    | apply (inv_subprocess_run I); side
    | apply (inv_popen I); side
    | apply (inv_call I); side
    | apply (inv_request_execute I); side
    | apply (inv_and_then I) | apply (inv_try I) | apply (inv_while I)
    | apply (inv_while_True I) | apply (inv_for_each I) | apply (inv_bind I)
    | match goal with
      | |- forall _, _ => intros ?
      | |- preserves _ (if ?b then _ else _) => destruct b
      | |- preserves _ (match ?x with _ => _ end) => destruct x
      | |- preserves _ (let _ := _ in _) => cbv zeta
      end ].

(** ** The sentinel record *)

Lemma quiet_invariant : Invariant (fun e => ~ is_db_set e) quiet.
Proof.
  split.
  - intros w. exists []. split; [apply adds_nil | by split].
  - intros w1 w2 w3 (t1 & H1 & F1 & D1) (t2 & H2 & F2 & D2).
    exists (t1 ++ t2). split; [by eapply adds_app |].
    split; [by apply Forall_app | congruence].
  - intros e w w' He Ht _ Hdb. exists [e]. split; [done |].
    split; [by repeat constructor | done].
Qed.

Lemma quiet_guarded w w' : quiet w w' -> guarded w w'.
Proof.
  intros (t & Ht & Hno & Hdb). exists t. split; [done |]. split; [| by left].
  intros path value Hin. exfalso.
  rewrite Forall_forall in Hno. apply (Hno (EvDbSet path value)).
  - by apply list_elem_of_In.
  - by exists path, value.
Qed.

Lemma guarded_invariant : Invariant (fun e => ~ is_db_set e) guarded.
Proof.
  split.
  - intros w. apply quiet_guarded, quiet_invariant.
  - intros w1 w2 w3 (t1 & H1 & S1 & D1) (t2 & H2 & S2 & D2).
    exists (t1 ++ t2). split; [by eapply adds_app |]. split.
    + intros path value Hin. apply in_app_or in Hin as [Hin | Hin].
      * destruct (S1 _ _ Hin) as (? & ? & ?). repeat split; try done.
        apply in_or_app. by left.
      * destruct (S2 _ _ Hin) as (? & ? & ?). repeat split; try done.
        apply in_or_app. by right.
    + destruct D1 as [D1 | [D1 C1]], D2 as [D2 | [D2 C2]].
      * left. congruence.
      * right. split; [congruence | apply in_or_app; by right].
      * right. split; [congruence | apply in_or_app; by left].
      * right. split; [| apply in_or_app; by left].
        rewrite D2, D1. apply insert_insert_eq.
  - intros e w w' He Ht Hf Hdb. apply quiet_guarded.
    by apply (inv_step _ _ quiet_invariant e).
Qed.

Ltac not_db_set := intros (? & ? & ?); discriminate.

Lemma poll_once_quiet env name : preserves quiet (poll_once env name).
Proof.
  unfold poll_once. inv_tac quiet_invariant fail not_db_set.
Qed.

(** The loop returns only after it has printed that the operation is
    done. *)
Lemma poll_once_Return env name a w w' :
  poll_once env name w = (Done (Return a), w') ->
  exists t, adds w w' t /\ In completed_message t.
Proof.
  unfold poll_once. intros H.
  apply bind_Done_inv in H as (result & w1 & Hexecute & H).
  apply bind_Done_inv in H as (has_error & w2 & Hcontains & H).
  apply (inv_request_execute quiet_invariant) in Hexecute
    as (t1 & Ht1 & _); [| not_db_set].
  apply lift_world in Hcontains as ->.
  destruct has_error.
  { apply bind_Done_inv in H as (error & w3 & _ & H). discriminate. }
  apply bind_Done_inv in H as (done & w3 & Hdone & H).
  assert (w3 = w1) as ->.
  { unfold and_then in Hdone.
    apply bind_Done_inv in Hdone as (has_done & w4 & Hc & Hdone).
    apply lift_world in Hc as ->.
    destruct has_done; [| by injection Hdone as _ <-].
    apply bind_Done_inv in Hdone as (d & w5 & Hg & Hdone).
    apply lift_world in Hg as ->. by injection Hdone as _ <-. }
  destruct done; [| discriminate].
  injection H as _ <-.
  exists (t1 ++ [completed_message]). split.
  - eapply adds_app; [done | apply adds_log].
  - apply in_or_app. right. by left.
Qed.

Lemma while_True_poll_completed env name fuel :
  forall w w',
    while_True fuel (poll_once env name) w = (Done tt, w') ->
    exists t, adds w w' t /\ In completed_message t.
Proof.
  induction fuel as [| fuel IH]; intros w w' H; [discriminate |].
  cbn [while_True] in H.
  apply bind_Done_inv in H as (f & w1 & Hpoll & H).
  destruct f as [| []].
  - apply poll_once_quiet in Hpoll as (t1 & Ht1 & _).
    apply IH in H as (t2 & Ht2 & Hin).
    exists (t1 ++ t2). split; [by eapply adds_app |].
    apply in_or_app. by right.
  - injection H as <-. by apply poll_once_Return in Hpoll.
Qed.

Lemma wait_for_operation_quiet env fuel name :
  preserves quiet (wait_for_operation env fuel name).
Proof.
  unfold wait_for_operation.
  inv_tac quiet_invariant ltac:(apply poll_once_quiet) not_db_set.
Qed.

Lemma wait_for_operation_completed env fuel name w w' :
  wait_for_operation env fuel name w = (Done tt, w') ->
  exists t, adds w w' t /\ In completed_message t.
Proof.
  unfold wait_for_operation. intros H.
  apply bind_Done_inv in H as ([] & w1 & H1 & H).
  apply bind_Done_inv in H as ([] & w2 & H2 & H).
  apply bind_Done_inv in H as ([] & w3 & H3 & H).
  apply bind_Done_inv in H as ([] & w4 & H4 & H).
  apply (inv_call quiet_invariant) in H1 as (t1 & Ht1 & _); [| not_db_set].
  apply (inv_call quiet_invariant) in H2 as (t2 & Ht2 & _); [| not_db_set].
  apply (inv_call quiet_invariant) in H3 as (t3 & Ht3 & _); [| not_db_set].
  apply (inv_emit quiet_invariant) in H4 as (t4 & Ht4 & _); [| not_db_set].
  apply while_True_poll_completed in H as (t5 & Ht5 & Hin).
  exists (t1 ++ t2 ++ t3 ++ t4 ++ t5).
  split; [by repeat (eapply adds_app; [done |]) |].
  repeat (apply in_or_app; right). done.
Qed.

Lemma guarded_after_wait w w1 w' t1 t2 :
  adds w w1 t1 ->
  In completed_message t1 ->
  Forall (fun e => ~ is_db_set e) t1 ->
  db w1 = db w ->
  adds w1 w' t2 ->
  (forall path value, In (EvDbSet path value) t2 ->
                      path = "setup/" /\ value = sentinel) ->
  (db w' = db w1 \/ db w' = <["setup/" := sentinel]> (db w1)) ->
  guarded w w'.
Proof.
  intros Ht1 Hin Hno Hdb Ht2 Hset Hdb'. exists (t1 ++ t2).
  split; [by eapply adds_app |]. split.
  - intros path value H. apply in_app_or in H as [H | H].
    + exfalso. rewrite Forall_forall in Hno.
      apply (Hno (EvDbSet path value)); [by apply list_elem_of_In |].
      by exists path, value.
    + destruct (Hset _ _ H) as [-> ->]. repeat split.
      apply in_or_app. by left.
  - destruct Hdb' as [Hdb' | Hdb']; [left; congruence |].
    right. split; [congruence | apply in_or_app; by left].
Qed.

(** What comes after the POST: waiting for the operation and writing the
    sentinel record. *)
Lemma wait_then_write_guarded env fuel name project_id :
  preserves guarded
    (bind (wait_for_operation env fuel name)
       (fun _ => write_sentinel env project_id)).
Proof.
  intros w o w'. unfold bind at 1.
  destruct (wait_for_operation env fuel name w) as [[[] | e |] w1] eqn:Hwait;
    try (intros [= <- <-]; by eapply quiet_guarded, wait_for_operation_quiet).
  pose proof (wait_for_operation_quiet _ _ _ _ _ _ Hwait) as (t1 & Ht1 & Hno & Hdb).
  apply wait_for_operation_completed in Hwait as (t1' & Ht1' & Hin).
  assert (t1' = t1) as -> by by eapply adds_inj.
  unfold write_sentinel, db_reference_set, call. run_script.
  destruct (raises env (EvCertificate credentials_path));
    [| destruct (raises env (EvInitializeApp _));
       [| destruct (raises env (EvDbSet "setup/" sentinel))]];
    simpl; intros [= <- <-].
  - apply (guarded_after_wait w w1 _ t1 [EvCertificate credentials_path]);
      try done; [| by left].
    intros path value [H | []]. discriminate.
  - apply (guarded_after_wait w w1 _ t1
             [EvCertificate credentials_path;
              EvInitializeApp [("databaseURL", database_url project_id)]]);
      try done; [by unfold adds; simpl; rewrite <- app_assoc | | by left].
    intros path value [H | [H | []]]; discriminate.
  - apply (guarded_after_wait w w1 _ t1
             [EvCertificate credentials_path;
              EvInitializeApp [("databaseURL", database_url project_id)];
              EvDbSet "setup/" sentinel]);
      try done; [by unfold adds; simpl; rewrite <- !app_assoc | | by left].
    intros path value [H | [H | [H | []]]]; try discriminate.
    by injection H as <- <-.
  - apply (guarded_after_wait w w1 _ t1
             [EvCertificate credentials_path;
              EvInitializeApp [("databaseURL", database_url project_id)];
              EvDbSet "setup/" sentinel]);
      try done; [by unfold adds; simpl; rewrite <- !app_assoc | | by right].
    intros path value [H | [H | [H | []]]]; try discriminate.
    by injection H as <- <-.
Qed.

(** X3. In every run of [initialize_firebase], whatever the provider
    answers and however the run ends, the only database write attempted
    is that of the sentinel record at [setup/], and only once the polling
    loop has reported the operation done; the database is left as it was
    or has changed by that record alone. *)
Theorem sentinel_only_after_completion (env : Env) (fuel : nat)
    (project_id : string) (w : World) :
  exists t,
    adds w (snd (initialize_firebase env fuel project_id w)) t
    /\ (forall path value, In (EvDbSet path value) t ->
        path = "setup/"
        /\ value = JObj {[ "completed" := JBool true ]}
        /\ In (EvPrint [JStr "Add Firebase operation completed."]) t)
    /\ (db (snd (initialize_firebase env fuel project_id w)) = db w
        \/ db (snd (initialize_firebase env fuel project_id w))
           = <["setup/" := JObj {[ "completed" := JBool true ]}]> (db w)
           /\ In (EvPrint [JStr "Add Firebase operation completed."]) t).
Proof.
  assert (preserves guarded (initialize_firebase env fuel project_id)) as H.
  { unfold initialize_firebase, get_access_token, requests_post_json.
    inv_tac guarded_invariant
      ltac:(apply (wait_then_write_guarded env fuel _ project_id))
      not_db_set. }
  destruct (initialize_firebase env fuel project_id w) as [o w'] eqn:E.
  apply H in E. exact E.
Qed.

(** X2. When the add-database call returns an operation name, the
    operation is pending for [n] polls and then done without error, and
    the credentials, the client and the database write succeed,
    [initialize_firebase] returns after [n + 1] polls with the sentinel
    record [{completed: true}] stored at [setup/], the write being the
    last thing it does. *)
Theorem initialize_firebase_completes (env : Env) (fuel n : nat)
    (project_id token : string) (m : gmap string json) (name : json)
    (w : World) :
  access_token env credentials_path = Ok token ->
  post_json env (add_firebase_uri project_id)
    [("Authorization", "Bearer " +:+ token)] = Ok (JObj m) ->
  not_conflict m ->
  m !! "name" = Some name ->
  setup_succeeds env name ->
  (forall i, (i < n)%nat -> pending (execute env name (polls w + i)%nat)) ->
  reports_done (execute env name (polls w + n)%nat) ->
  no_error (execute env name (polls w + n)%nat) ->
  (n < fuel)%nat ->
  raises env (EvCertificate credentials_path) = None ->
  raises env (EvInitializeApp
                [("databaseURL", "https://" +:+ project_id +:+ ".firebaseio.com")])
  = None ->
  raises env (EvDbSet "setup/" (JObj {[ "completed" := JBool true ]})) = None ->
  exists w',
    initialize_firebase env fuel project_id w = (Done tt, w')
    /\ db w' = <["setup/" := JObj {[ "completed" := JBool true ]}]> (db w)
    /\ polls w' = (polls w + S n)%nat
    /\ adds w w'
         (request_events project_id token
          ++ [EvPrint [JStr "Operation name:"; name]]
          ++ wait_setup name ++ poll_rounds name n
          ++ [EvExecute name;
              EvPrint [JStr "Add Firebase operation completed."];
              EvCertificate credentials_path;
              EvInitializeApp
                [("databaseURL", "https://" +:+ project_id +:+ ".firebaseio.com")];
              EvDbSet "setup/" (JObj {[ "completed" := JBool true ]})]).
Proof.
  intros Htoken Hpost Hconflict Hname Hsetup Hpending Hdone Hno Hfuel
    Hcert Hinit Hset.
  rewrite (initialize_firebase_waits _ _ _ token m name) by done.
  unfold bind at 1. rewrite wait_for_operation_loop by done.
  replace fuel with (n + S (fuel - S n))%nat by lia.
  rewrite while_True_pending
    by (intros i Hi; simpl; rewrite !Nat.add_0_r; by apply Hpending).
  cbn [while_True]. unfold bind at 1.
  rewrite poll_once_done by (simpl; by rewrite !Nat.add_0_r).
  cbv iota beta. unfold ret at 1. cbv iota beta.
  unfold write_sentinel, db_reference_set, call. run_script.
  unfold database_url. rewrite Hcert. simpl. rewrite Hinit. simpl.
  unfold sentinel. rewrite Hset. simpl.
  eexists. split; [reflexivity |]. simpl.
  split; [done |]. split; [lia |].
  unfold adds. simpl. by rewrite <- !app_assoc.
Qed.

Lemma initialize_firebase_completes_witness :
  exists w',
    initialize_firebase (with_answers done_at_third_poll calm_env) 5
      "my-project" (fresh []) = (Done tt, w')
    /\ db w' !! "setup/" = Some (JObj {[ "completed" := JBool true ]})
    /\ polls w' = 3%nat.
Proof.
  destruct (initialize_firebase_completes
              (with_answers done_at_third_poll calm_env) 5 2 "my-project"
              "ya29.token" {[ "name" := operation_name ]} operation_name
              (fresh []))
    as (w' & H & Hdb & Hpolls & _); try reflexivity.
  - by left.
  - by repeat split.
  - intros i Hi. exists {[ "done" := JBool false ]}.
    destruct i as [| [| i]]; [| | lia];
      (split; [reflexivity |]); (split; [reflexivity |]);
      right; by exists (JBool false).
  - exists {[ "done" := JBool true ]}, (JBool true). by repeat split.
  - intros error (m & [= <-] & Hm). vm_compute in Hm. discriminate.
  - lia.
  - exists w'. split; [done |]. split; [| done].
    rewrite Hdb. apply lookup_insert_eq.
Defined.

(** X13. When the add-database response has an [error] member from which
    no [code] can be read (an object without that member, or a value that
    is not an object), [initialize_firebase] fails with the error of that
    lookup, a [KeyError] or a [TypeError], whether or not the response
    names an operation: it polls nothing and writes nothing. *)
Theorem initialize_firebase_error_without_code (env : Env) (fuel : nat)
    (project_id token : string) (m : gmap string json) (error : json)
    (x : exn) (w : World) :
  access_token env credentials_path = Ok token ->
  post_json env (add_firebase_uri project_id)
    [("Authorization", "Bearer " +:+ token)] = Ok (JObj m) ->
  m !! "error" = Some error ->
  Py.getitem error "code" = Fail x ->
  exists w',
    initialize_firebase env fuel project_id w = (Raised x, w')
    /\ adds w w' (request_events project_id token)
    /\ polls w' = polls w
    /\ db w' = db w.
Proof.
  intros Htoken Hpost Herror Hcode.
  eexists. split.
  - unfold initialize_firebase, get_access_token, requests_post_json.
    run_script. rewrite Htoken. simpl. rewrite Hpost. simpl.
    rewrite Herror. simpl. rewrite Hcode. reflexivity.
  - repeat split. unfold adds. simpl. by rewrite <- !app_assoc.
Qed.

Lemma initialize_firebase_error_without_code_witness :
  exists w',
    initialize_firebase
      (with_response
         (JObj (<["name" := operation_name]>
                  {[ "error" := JObj {[ "status" := JStr "UNKNOWN" ]} ]}))
         calm_env)
      3 "my-project" (fresh [])
    = (Raised (KeyError "code"), w')
    /\ polls w' = O.
Proof.
  destruct (initialize_firebase_error_without_code
              (with_response
                 (JObj (<["name" := operation_name]>
                          {[ "error" := JObj {[ "status" := JStr "UNKNOWN" ]} ]}))
                 calm_env)
              3 "my-project" "ya29.token"
              (<["name" := operation_name]>
                 {[ "error" := JObj {[ "status" := JStr "UNKNOWN" ]} ]})
              (JObj {[ "status" := JStr "UNKNOWN" ]}) (KeyError "code")
              (fresh []))
    as (w' & H & _ & Hpolls & _); try reflexivity.
  by exists w'.
Defined.

(** X14. When the add-database response is an object with neither an
    [error] nor a [name] member, [initialize_firebase] returns normally
    having polled nothing and written nothing. *)
Theorem initialize_firebase_unrecognised (env : Env) (fuel : nat)
    (project_id token : string) (m : gmap string json) (w : World) :
  access_token env credentials_path = Ok token ->
  post_json env (add_firebase_uri project_id)
    [("Authorization", "Bearer " +:+ token)] = Ok (JObj m) ->
  m !! "error" = None ->
  m !! "name" = None ->
  exists w',
    initialize_firebase env fuel project_id w = (Done tt, w')
    /\ adds w w' (request_events project_id token)
    /\ polls w' = polls w
    /\ db w' = db w.
Proof.
  intros Htoken Hpost Herror Hname.
  eexists. split.
  - unfold initialize_firebase, get_access_token, requests_post_json.
    run_script. rewrite Htoken. simpl. rewrite Hpost. simpl.
    rewrite Herror. simpl. rewrite Hname. reflexivity.
  - repeat split. unfold adds. simpl. by rewrite <- !app_assoc.
Qed.

Lemma initialize_firebase_unrecognised_witness :
  exists w',
    initialize_firebase (with_response (JObj ∅) calm_env) 3 "my-project"
      (fresh [])
    = (Done tt, w')
    /\ polls w' = O /\ db w' = ∅.
Proof.
  destruct (initialize_firebase_unrecognised
              (with_response (JObj ∅) calm_env) 3 "my-project" "ya29.token"
              ∅ (fresh []))
    as (w' & H & _ & Hpolls & Hdb); try reflexivity.
  by exists w'.
Defined.

(** X4. When no access token can be obtained from the credentials file,
    or the add-database request fails or its body is not JSON,
    [initialize_firebase] raises that error: in the first case no request
    is sent, and in both nothing is polled or written. *)
Theorem initialize_firebase_request_fails (env : Env) (fuel : nat)
    (project_id : string) (x : exn) (w : World) :
  (access_token env credentials_path = Fail x ->
   initialize_firebase env fuel project_id w
   = (Raised x,
      after [EvPrint [JStr "Initializing Firebase..."];
             EvAccessToken "../resources/generated_firebase_credentials.json"]
        0 w))
  /\ (forall token,
      access_token env credentials_path = Ok token ->
      post_json env (add_firebase_uri project_id)
        [("Authorization", "Bearer " +:+ token)] = Fail x ->
      initialize_firebase env fuel project_id w
      = (Raised x, after (request_events project_id token) 0 w)).
Proof.
  split.
  - intros Htoken. unfold initialize_firebase, get_access_token.
    run_script. rewrite Htoken. simpl. f_equal.
    unfold after, log. simpl. f_equal; [by rewrite <- app_assoc | lia].
  - intros token Htoken Hpost.
    unfold initialize_firebase, get_access_token, requests_post_json.
    run_script. rewrite Htoken. simpl. rewrite Hpost. simpl. f_equal.
    unfold after, log. simpl. f_equal; [by rewrite <- !app_assoc | lia].
Qed.

(** ** What a run writes to the database *)

Lemma guarded_json_dump_to env path value :
  preserves guarded (json_dump_to env path value).
Proof.
  apply (inv_bind guarded_invariant);
    [apply (inv_call guarded_invariant); not_db_set |].
  intros _ w o w' [= <- <-]. apply quiet_guarded. exists [].
  split; [unfold adds; simpl; by rewrite app_nil_r |]. by split.
Qed.

(** X6. However a run of [main] goes and wherever it ends, the only
    database write the script attempts is that of the sentinel record at
    [setup/], and only once the polling loop has reported the operation
    done: no other step of [main] writes to the database, which is left
    as it was or has changed by that record alone. *)
Theorem main_writes_only_the_sentinel (env : Env) (fuel : nat) (w : World) :
  exists t,
    adds w (snd (main env fuel w)) t
    /\ (forall path value, In (EvDbSet path value) t ->
        path = "setup/"
        /\ value = JObj {[ "completed" := JBool true ]}
        /\ In (EvPrint [JStr "Add Firebase operation completed."]) t)
    /\ (db (snd (main env fuel w)) = db w
        \/ db (snd (main env fuel w))
           = <["setup/" := JObj {[ "completed" := JBool true ]}]> (db w)
           /\ In (EvPrint [JStr "Add Firebase operation completed."]) t).
Proof.
  assert (preserves guarded (main env fuel)) as H.
  { unfold main, set_region, enable_apis, get_service_key,
      initialize_firebase, get_access_token, requests_post_json,
      create_config, deploy.
    inv_tac guarded_invariant
      ltac:(first [ apply wait_then_write_guarded
                  | apply guarded_json_dump_to ])
      not_db_set. }
  destruct (main env fuel w) as [o w'] eqn:E. apply H in E. exact E.
Qed.

(** ** The order of the steps in every run *)

Lemma compress_nil_inv l : compress l = [] -> l = [].
Proof.
  destruct l as [| x l]; [done |]. cbn [compress].
  destruct (compress l) as [| y rest]; [done |].
  by destruct (decide (x = y)).
Qed.

Lemma phases_after_block X n t1 t2 :
  omap step_of t1 = replicate (S n) X ->
  phases (t1 ++ t2) = compress (X :: omap step_of t2).
Proof.
  intros H. unfold phases. by rewrite omap_app, H, compress_replicate.
Qed.

Lemma phases_block X n t :
  omap step_of t = replicate (S n) X -> phases t = [X].
Proof.
  intros H. rewrite <- (app_nil_r t).
  by rewrite (phases_after_block X n).
Qed.

Lemma in_order_cons {A B} X L (c : M A) (k : A -> M B) :
  carries_out X c ->
  (forall a, in_order L (k a)) ->
  head L <> Some X ->
  in_order (X :: L) (bind c k).
Proof.
  intros Hc Hk Hhead w o w'. unfold bind.
  destruct (c w) as [[a | e |] w1] eqn:E; intros H.
  - apply Hc in E as (t1 & n & Ht1 & Hn).
    apply Hk in H as (t2 & Ht2 & Hprefix & Hdone).
    exists (t1 ++ t2). split; [by eapply adds_app |].
    rewrite (phases_after_block X n) by done.
    fold (phases t2) in *. cbn [compress].
    change (compress (omap step_of t2)) with (phases t2).
    destruct (phases t2) as [| y rest] eqn:Hp.
    + split; [apply prefix_cons, prefix_nil |].
      intros b Hb. by rewrite <- (Hdone b Hb).
    + assert (X <> y) as Hne.
      { intros ->. apply Hhead. destruct Hprefix as [l' ->]. done. }
      rewrite decide_False by done.
      split; [by apply prefix_cons |].
      intros b Hb. by rewrite <- (Hdone b Hb).
  - injection H as <- <-. apply Hc in E as (t1 & n & Ht1 & Hn).
    exists t1. split; [done |]. rewrite (phases_block X n) by done.
    split; [apply prefix_cons, prefix_nil | discriminate].
  - injection H as <- <-. apply Hc in E as (t1 & n & Ht1 & Hn).
    exists t1. split; [done |]. rewrite (phases_block X n) by done.
    split; [apply prefix_cons, prefix_nil | discriminate].
Qed.

Lemma in_order_same {A B} X L (c : M A) (k : A -> M B) :
  carries_out X c ->
  (forall a, in_order (X :: L) (k a)) ->
  in_order (X :: L) (bind c k).
Proof.
  intros Hc Hk w o w'. unfold bind.
  destruct (c w) as [[a | e |] w1] eqn:E; intros H.
  - apply Hc in E as (t1 & n & Ht1 & Hn).
    apply Hk in H as (t2 & Ht2 & Hprefix & Hdone).
    exists (t1 ++ t2). split; [by eapply adds_app |].
    rewrite (phases_after_block X n) by done. cbn [compress].
    change (compress (omap step_of t2)) with (phases t2).
    destruct (phases t2) as [| y rest] eqn:Hp.
    + split; [apply prefix_cons, prefix_nil |].
      intros b Hb. by specialize (Hdone b Hb).
    + assert (y = X) as ->.
      { destruct Hprefix as [l' Hl]. by injection Hl as <-. }
      by rewrite decide_True.
  - injection H as <- <-. apply Hc in E as (t1 & n & Ht1 & Hn).
    exists t1. split; [done |]. rewrite (phases_block X n) by done.
    split; [apply prefix_cons, prefix_nil | discriminate].
  - injection H as <- <-. apply Hc in E as (t1 & n & Ht1 & Hn).
    exists t1. split; [done |]. rewrite (phases_block X n) by done.
    split; [apply prefix_cons, prefix_nil | discriminate].
Qed.

Lemma in_order_after_print {A} L args (c : M A) :
  in_order L c -> in_order L (bind (print args) (fun _ => c)).
Proof.
  intros Hc w o w' H. unfold bind, print, emit in H.
  apply Hc in H as (t & Ht & Hprefix & Hdone).
  exists (EvPrint args :: t). split; [| done].
  unfold adds in *. rewrite Ht. simpl. by rewrite <- app_assoc.
Qed.

Lemma in_order_prints a b :
  in_order [] (bind (print_str a) (fun _ => print_str b)).
Proof.
  intros w o w' [= <- <-]. exists [EvPrint [JStr a]; EvPrint [JStr b]].
  split; [| done]. unfold adds. simpl. by rewrite <- app_assoc.
Qed.

Lemma carries_out_input X prompt :
  step_of (EvInput prompt) = Some X -> carries_out X (input prompt).
Proof.
  intros Hstep w o w'. unfold input.
  destruct (stdin w); intros [= <- <-]; exists [EvInput prompt], O;
    (split; [done |]); cbn [omap list_omap]; by rewrite Hstep.
Qed.

Lemma prompt_loop_carries_out fuel prompt :
  step_of (EvInput prompt) = Some Prompting ->
  carries_out Prompting
    (while (S fuel) (fun s => negb (Py.str_truthy s))
       (fun _ => input prompt) EmptyString).
Proof.
  intros Hstep. cbn [while Py.str_truthy negb].
  apply carries_out_bind; [by apply carries_out_input |].
  intros s. apply block_while. intros _. apply block_input. by right.
Qed.

(** X5. In every run of [main], however it ends, the external calls are
    made step by step in the order of the code: prompting, project
    setting, region selection, API enablement, service-account
    provisioning, database initialisation, configuration emission,
    deployment.  A run that stops early has made no call of a later
    step, and a run that returns has gone through all of them. *)
Theorem main_steps_in_order (env : Env) (fuel : nat) (w : World) :
  exists t,
    adds w (snd (main env fuel w)) t
    /\ phases t `prefix_of`
         [Prompting; ProjectSetting; RegionSelection; ApiEnablement;
          ServiceAccountProvisioning; DatabaseInitialization;
          ConfigurationEmission; Deployment]
    /\ (fst (main env fuel w) = Done tt ->
        phases t
        = [Prompting; ProjectSetting; RegionSelection; ApiEnablement;
           ServiceAccountProvisioning; DatabaseInitialization;
           ConfigurationEmission; Deployment]).
Proof.
  destruct fuel as [| fuel].
  { exists []. split; [apply adds_nil |]. split; [apply prefix_nil | done]. }
  assert (in_order full_order (main env (S fuel))) as H.
  { unfold main, full_order.
    apply in_order_same; [by apply prompt_loop_carries_out |].
    intros project_id.
    apply in_order_cons; [by apply prompt_loop_carries_out | | done].
    intros partner_key. apply in_order_after_print.
    apply in_order_cons;
      [by apply carries_out_subprocess_run | intros _ | done].
    apply in_order_cons; [apply set_region_step | intros _ | done].
    apply in_order_cons; [apply enable_apis_step | intros _ | done].
    apply in_order_cons; [apply get_service_key_step | intros _ | done].
    apply in_order_cons; [apply initialize_firebase_step | intros _ | done].
    apply in_order_cons; [apply create_config_step | intros _ | done].
    apply in_order_cons; [apply deploy_step | intros url | done].
    apply in_order_prints. }
  destruct (main env (S fuel) w) as [o w'] eqn:E.
  apply H in E as (t & Ht & Hprefix & Hdone).
  exists t. split; [done |]. split; [done |].
  simpl. intros ->. by apply (Hdone tt).
Qed.

(** ** API enablement *)

Lemma log_after_0 e w : log e w = after [e] 0 w.
Proof. unfold log, after. f_equal. simpl. lia. Qed.

Lemma for_each_enable_ok env (apis : list string) :
  forall w,
    Forall (fun api => exit_status env (enable_argv api) = 0) apis ->
    for_each apis
      (fun api =>
         bind (print_str (Text.tab +:+ api))
           (fun _ => subprocess_run env ["gcloud"; "services"; "enable"; api]))
      w
    = (Done tt, after (enable_events apis) 0 w).
Proof.
  induction apis as [| api apis IH]; intros w Hok.
  - cbn [for_each enable_events flat_map]. by rewrite after_nil.
  - apply Forall_cons in Hok as [Hapi Hok]. cbn [for_each].
    unfold bind at 1, bind at 1, print_str, print, emit, subprocess_run.
    unfold bind at 1, emit. cbv zeta.
    change ["gcloud"; "services"; "enable"; api] with (enable_argv api).
    rewrite Hapi. cbn [Z.eqb]. unfold ret at 1. cbv iota beta.
    rewrite IH by done. f_equal.
    rewrite !log_after_0, !after_after. reflexivity.
Qed.

Lemma for_each_enable_fail env (pre : list string) api post :
  forall w,
    Forall (fun api => exit_status env (enable_argv api) = 0) pre ->
    exit_status env (enable_argv api) <> 0 ->
    for_each (pre ++ api :: post)
      (fun api =>
         bind (print_str (Text.tab +:+ api))
           (fun _ => subprocess_run env ["gcloud"; "services"; "enable"; api]))
      w
    = (Raised (CalledProcessError (exit_status env (enable_argv api))
                 (enable_argv api)),
       after (enable_events (pre ++ [api])) 0 w).
Proof.
  induction pre as [| first pre IH]; intros w Hok Hfail.
  - cbn [app for_each].
    unfold bind at 1, bind at 1, print_str, print, emit, subprocess_run.
    unfold bind at 1, emit. cbv zeta.
    change ["gcloud"; "services"; "enable"; api] with (enable_argv api).
    apply Z.eqb_neq in Hfail. rewrite Hfail. unfold raise. cbv iota beta.
    f_equal. rewrite !log_after_0, !after_after. reflexivity.
  - apply Forall_cons in Hok as [Hfirst Hok]. cbn [app for_each].
    unfold bind at 1, bind at 1, print_str at 1, print, emit,
      subprocess_run at 1.
    unfold bind at 1, emit. cbv zeta.
    change ["gcloud"; "services"; "enable"; first] with (enable_argv first).
    rewrite Hfirst. cbn [Z.eqb]. unfold ret at 1. cbv iota beta.
    rewrite IH by done. f_equal.
    rewrite !log_after_0, !after_after. reflexivity.
Qed.

(** X1. [enable_apis] enables the six APIs in the order of its list and
    returns when every command succeeds; when a command fails it raises
    the [CalledProcessError] of that command at once: the APIs before it
    have been enabled and those after it are not attempted. *)
Theorem enable_apis_stops_at_first_failure (env : Env) (w : World) :
  (Forall (fun api => exit_status env ["gcloud"; "services"; "enable"; api] = 0)
     ["iam.googleapis.com"; "dialogflow.googleapis.com";
      "firebase.googleapis.com"; "cloudbuild.googleapis.com";
      "businessmessages.googleapis.com";
      "businesscommunications.googleapis.com"] ->
   enable_apis env w
   = (Done tt,
      after (EvPrint [JStr "Enabling APIs..."]
             :: enable_events
                  ["iam.googleapis.com"; "dialogflow.googleapis.com";
                   "firebase.googleapis.com"; "cloudbuild.googleapis.com";
                   "businessmessages.googleapis.com";
                   "businesscommunications.googleapis.com"]) 0 w))
  /\ (forall pre api post,
      ["iam.googleapis.com"; "dialogflow.googleapis.com";
       "firebase.googleapis.com"; "cloudbuild.googleapis.com";
       "businessmessages.googleapis.com";
       "businesscommunications.googleapis.com"] = pre ++ api :: post ->
      Forall (fun api => exit_status env ["gcloud"; "services"; "enable"; api] = 0)
        pre ->
      exit_status env ["gcloud"; "services"; "enable"; api] <> 0 ->
      enable_apis env w
      = (Raised (CalledProcessError
                   (exit_status env ["gcloud"; "services"; "enable"; api])
                   ["gcloud"; "services"; "enable"; api]),
         after (EvPrint [JStr "Enabling APIs..."]
                :: enable_events (pre ++ [api])) 0 w)).
Proof.
  split.
  - intros Hok. unfold enable_apis, apis_to_enable.
    unfold bind at 1, print_str at 1, print, emit.
    rewrite for_each_enable_ok by done.
    f_equal. by rewrite log_after_0, after_after.
  - intros pre api post Hlist Hok Hfail. unfold enable_apis, apis_to_enable.
    unfold bind at 1, print_str at 1, print, emit. rewrite Hlist.
    rewrite for_each_enable_fail by done.
    f_equal. by rewrite log_after_0, after_after.
Qed.

(** ** The prompts *)

Lemma prompt_loop_reads prompt n :
  forall fuel r rest w,
    stdin w = replicate n EmptyString ++ r :: rest ->
    r <> EmptyString ->
    (n < fuel)%nat ->
    while fuel (fun s => negb (Py.str_truthy s)) (fun _ => input prompt)
      EmptyString w
    = (Done r,
       {| trace := trace w ++ replicate (S n) (EvInput prompt);
          stdin := rest; polls := polls w; files := files w; db := db w |}).
Proof.
  induction n as [| n IH]; intros fuel r rest w Hstdin Hr Hfuel;
    (destruct fuel as [| fuel]; [lia |]);
    cbn [while Py.str_truthy negb]; unfold bind at 1, input at 1;
    rewrite Hstdin; cbn [replicate app].
  - destruct r as [| c r]; [done |].
    by destruct fuel.
  - rewrite (IH fuel r rest); try done; [| lia].
    simpl. by rewrite <- app_assoc.
Qed.

Lemma prompt_loop_end_of_input prompt n :
  forall fuel w,
    stdin w = replicate n EmptyString ->
    (n < fuel)%nat ->
    while fuel (fun s => negb (Py.str_truthy s)) (fun _ => input prompt)
      EmptyString w
    = (Raised EOFError,
       {| trace := trace w ++ replicate (S n) (EvInput prompt);
          stdin := []; polls := polls w; files := files w; db := db w |}).
Proof.
  induction n as [| n IH]; intros fuel w Hstdin Hfuel;
    (destruct fuel as [| fuel]; [lia |]);
    cbn [while Py.str_truthy negb]; unfold bind at 1, input at 1, log;
    rewrite Hstdin; cbn [replicate].
  - reflexivity.
  - rewrite (IH fuel); try done; [| lia].
    simpl. by rewrite <- app_assoc.
Qed.

(** X7. When standard input ends before a non-empty project id has been
    read, or after it but before a non-empty partner key, [main] fails
    with [EOFError]; it has asked once for every line read and once more,
    and has run no command. *)
Theorem main_end_of_input (env : Env) (fuel : nat) (w : World) :
  (forall n,
     stdin w = replicate n EmptyString ->
     (n < fuel)%nat ->
     main env fuel w
     = (Raised EOFError,
        {| trace :=
             trace w
             ++ replicate (S n)
                  (EvInput "Google Cloud Project ID (not necessarily project name): ");
           stdin := []; polls := polls w; files := files w; db := db w |}))
  /\ (forall n m project_id,
      stdin w
      = replicate n EmptyString ++ project_id :: replicate m EmptyString ->
      project_id <> EmptyString ->
      (n < fuel)%nat ->
      (m < fuel)%nat ->
      main env fuel w
      = (Raised EOFError,
         {| trace :=
              trace w
              ++ replicate (S n)
                   (EvInput "Google Cloud Project ID (not necessarily project name): ")
              ++ replicate (S m) (EvInput "Partner key from Google: ");
            stdin := []; polls := polls w; files := files w; db := db w |})).
Proof.
  split.
  - intros n Hstdin Hfuel. unfold main. unfold bind at 1.
    by rewrite (prompt_loop_end_of_input _ n).
  - intros n m project_id Hstdin Hid Hn Hm. unfold main. unfold bind at 1.
    rewrite (prompt_loop_reads _ n fuel project_id (replicate m EmptyString))
      by done.
    unfold bind at 1.
    rewrite (prompt_loop_end_of_input _ m) by done.
    simpl. by rewrite <- app_assoc.
Qed.

(** ** The regions listing *)




Lemma map_result_first_word_fail lines :
  Exists (fun line => Text.split_ws line = []) lines ->
  map_result first_word lines = Fail (IndexError "list index out of range").
Proof.
  induction lines as [| line lines IH]; intros H; [by apply Exists_nil in H |].
  cbn [map_result]. unfold first_word at 1.
  destruct (Text.split_ws line) as [| word words] eqn:Hline; [done |].
  apply Exists_cons in H as [H | H]; [congruence |].
  by rewrite IH.
Qed.

(** X9. When [gcloud app describe] wrote to its standard error and one of
    the listed lines (those after the first line and before the last line
    feed) is blank, [set_region] fails with [IndexError] right after the
    two commands: it prints no region and asks nothing. *)
Theorem set_region_blank_line (env : Env) (fuel : nat) (w : World)
    (line : string) :
  snd (communicate env "gcloud app describe") <> EmptyString ->
  In line
    (Text.slice_1_m1
       (Text.split_on Text.LF (fst (communicate env "gcloud app regions list")))) ->
  Text.split_ws line = [] ->
  set_region env fuel w
  = (Raised (IndexError "list index out of range"),
     after [EvPopen "gcloud app describe" None;
            EvPopen "gcloud app regions list" None] 0 w).
Proof.
  intros Herr Hin Hblank.
  unfold set_region, popen_communicate. run_script.
  destruct (communicate env "gcloud app describe") as [out err].
  destruct err as [| c err]; [done |]. cbn [Py.str_truthy].
  destruct (communicate env "gcloud app regions list") as [out' err'].
  unfold parse_regions. simpl in Hin.
  rewrite map_result_first_word_fail.
  - simpl. f_equal. unfold after, log. simpl.
    f_equal; [by rewrite <- app_assoc | lia].
  - apply Exists_exists. exists line. split; [by apply list_elem_of_In | done].
Qed.

Lemma set_region_blank_line_witness :
  set_region
    (with_output "gcloud app regions list"
       ("REGION" +:+ Text.nl +:+ "  " +:+ Text.nl +:+ "us-central" +:+ Text.nl,
        EmptyString)
       new_project_env)
    5 (fresh ["us-central"])
  = (Raised (IndexError "list index out of range"),
     after [EvPopen "gcloud app describe" None;
            EvPopen "gcloud app regions list" None] 0 (fresh ["us-central"])).
Proof.
  apply (set_region_blank_line _ _ _ "  "); [discriminate | | reflexivity].
  vm_compute. by left.
Defined.

(** The words of [s.split()] contain no white space. *)
Lemma split_ws_no_space s word :
  In word (Text.split_ws s) ->
  Forall (fun c => Text.is_space c = false) (list_ascii_of_string word).
Proof.
  revert word. induction s as [| c rest IH]; intros word; [by intros [] |].
  cbn [Text.split_ws]. cbv zeta.
  destruct (Text.is_space c) eqn:Hc; [apply IH |].
  destruct rest as [| d rest'].
  { intros [<- | []]. by repeat constructor. }
  destruct (Text.is_space d) eqn:Hd.
  - intros [<- | H]; [by repeat constructor | by apply IH].
  - destruct (Text.split_ws (String d rest')) as [| first words].
    + intros [<- | []]. by repeat constructor.
    + intros [<- | H].
      * cbn [list_ascii_of_string]. constructor; [done |].
        apply IH. by left.
      * apply IH. by right.
Qed.

(** X10. Whatever the listing and whatever the user types, the region
    that [set_region] passes to [gcloud app create] is never empty and
    contains no white space. *)
Theorem set_region_region_is_a_word (env : Env) (fuel : nat) (w : World)
    (t : list Event) (argv : list string) :
  adds w (snd (set_region env fuel w)) t ->
  In (EvRun argv) t ->
  exists region,
    argv = ["gcloud"; "app"; "create"; "--region=" +:+ region]
    /\ region <> EmptyString
    /\ Forall (fun c => Text.is_space c = false) (list_ascii_of_string region).
Proof.
  intros Hadds Hin.
  destruct (set_region_cases env fuel w)
    as (o & w' & t' & Hrun & Hadds' & _ & Honly & _).
  rewrite Hrun in Hadds. simpl in Hadds.
  assert (t = t') as -> by by eapply adds_inj.
  destruct (Honly argv Hin)
    as (_ & regions_list & region & Hparse & Hregion & ->).
  exists region. split; [done |].
  unfold parse_regions in Hparse.
  destruct (map_result_In _ _ _ _ Hparse Hregion) as (line & _ & Hword).
  unfold first_word in Hword.
  destruct (Text.split_ws line) as [| word words] eqn:Hline; [discriminate |].
  injection Hword as ->.
  assert (In region (Text.split_ws line)) as Hsplit by (rewrite Hline; by left).
  split.
  - intros ->. by apply (split_ws_nonempty line).
  - by apply (split_ws_no_space line).
Qed.

Lemma set_region_region_is_a_word_witness :
  exists region,
    ["gcloud"; "app"; "create"; "--region=us-central"]
    = ["gcloud"; "app"; "create"; "--region=" +:+ region]
    /\ region <> EmptyString.
Proof.
  destruct (set_region_region_is_a_word new_project_env 5
              (fresh ["mars"; "us-central"])
              [EvPopen "gcloud app describe" None;
               EvPopen "gcloud app regions list" None;
               EvPrint [JStr (Text.nl +:+ "Regions:")];
               EvPrint [JStr ("asia-east2" +:+ Text.nl +:+ "us-central")];
               EvInput region_prompt; EvInput region_prompt;
               EvRun ["gcloud"; "app"; "create"; "--region=us-central"]]
              ["gcloud"; "app"; "create"; "--region=us-central"])
    as (region & H1 & H2 & _); [reflexivity | simpl; tauto |].
  by exists region.
Defined.

Lemma split_on_line line rest :
  Text.has_char Text.LF line = false ->
  Text.split_on Text.LF (line +:+ String Text.LF rest)
  = line :: Text.split_on Text.LF rest.
Proof.
  induction line as [| c line IH]; intros Hline.
  - change (EmptyString +:+ ?x) with x. cbn [Text.split_on].
    by rewrite Ascii.eqb_refl.
  - change (String c line +:+ ?x) with (String c (line +:+ x)).
    cbn [Text.has_char] in Hline. apply orb_false_elim in Hline as [Hc Hline].
    cbn [Text.split_on]. rewrite Hc. by rewrite IH.
Qed.

Lemma has_char_app c a b :
  Text.has_char c (a +:+ b) = Text.has_char c a || Text.has_char c b.
Proof.
  induction a as [| d a IH]; [done |].
  change (String d a +:+ b) with (String d (a +:+ b)).
  cbn [Text.has_char]. rewrite IH. by rewrite orb_assoc.
Qed.

Lemma word_has_no_line_feed name :
  Forall (fun c => Text.is_space c = false) (list_ascii_of_string name) ->
  Text.has_char Text.LF name = false.
Proof.
  induction name as [| c name IH]; [done |].
  cbn [list_ascii_of_string Text.has_char]. intros H.
  apply Forall_cons in H as [Hc H]. rewrite IH by done.
  destruct (Ascii.eqb c Text.LF) eqn:E; [| done].
  apply Ascii.eqb_eq in E as ->. discriminate.
Qed.

Lemma split_ws_word name columns :
  is_word name ->
  Text.split_ws (name +:+ String " " columns) = name :: Text.split_ws columns.
Proof.
  intros [Hne Hword]. induction name as [| c name IH]; [done |].
  cbn [list_ascii_of_string] in Hword.
  apply Forall_cons in Hword as [Hc Hword].
  change (String c name +:+ ?x) with (String c (name +:+ x)).
  cbn [Text.split_ws]. cbv zeta. rewrite Hc.
  destruct name as [| d name].
  - change (EmptyString +:+ ?x) with x. cbv iota.
    change (Text.is_space " ") with true. cbv iota.
    cbn [Text.split_ws]. cbv zeta. by change (Text.is_space " ") with true.
  - rewrite IH by done.
    change (String d name +:+ ?x) with (String d (name +:+ x)). cbv iota.
    cbn [list_ascii_of_string] in Hword.
    apply Forall_cons in Hword as [Hd _]. by rewrite Hd.
Qed.

Lemma split_on_table rows :
  Forall (fun row => is_word (fst row)
                     /\ Text.has_char Text.LF (snd row) = false) rows ->
  Text.split_on Text.LF (table_rows rows)
  = map (fun row => fst row +:+ String " " (snd row)) rows ++ [EmptyString].
Proof.
  induction rows as [| [name columns] rows IH]; intros H; [done |].
  apply Forall_cons in H as [[[_ Hword] Hcolumns] H].
  cbn [fst snd] in Hword, Hcolumns.
  cbn [table_rows map app fst snd].
  rewrite <- append_assoc, split_on_line; [by rewrite IH |].
  rewrite has_char_app, word_has_no_line_feed by done.
  cbn [Text.has_char orb]. by rewrite Hcolumns.
Qed.

Lemma first_words_of_table rows :
  Forall (fun row => is_word (fst row)
                     /\ Text.has_char Text.LF (snd row) = false) rows ->
  map_result first_word
    (map (fun row => fst row +:+ String " " (snd row)) rows)
  = Ok (map fst rows).
Proof.
  induction rows as [| [name columns] rows IH]; intros H; [done |].
  apply Forall_cons in H as [[Hword _] H]. cbn [fst] in Hword.
  cbn [map map_result fst snd]. unfold first_word at 1.
  rewrite split_ws_word by done. by rewrite IH.
Qed.

(** X11. From a listing made of a header line and one line per region,
    each a name followed by a space and further columns and ended by a
    line feed, the step reads exactly the names, in order: the header and
    the other columns are left out. *)
Theorem parse_regions_table (header : string) (rows : list (string * string)) :
  Text.has_char Text.LF header = false ->
  Forall (fun row => is_word (fst row)
                     /\ Text.has_char Text.LF (snd row) = false) rows ->
  parse_regions (header +:+ String Text.LF (table_rows rows))
  = Ok (map fst rows).
Proof.
  intros Hheader Hrows. unfold parse_regions.
  rewrite split_on_line, split_on_table by done.
  unfold Text.slice_1_m1. cbn [tail].
  rewrite removelast_last. by apply first_words_of_table.
Qed.

Lemma parse_regions_table_witness :
  parse_regions
    ("REGION        SUPPORTS_STANDARD  SUPPORTS_FLEXIBLE"
     +:+ String Text.LF
           (table_rows [("asia-east2", "   YES                YES");
                        ("us-central", "   YES                YES")]))
  = Ok ["asia-east2"; "us-central"].
Proof.
  apply (parse_regions_table
           "REGION        SUPPORTS_STANDARD  SUPPORTS_FLEXIBLE"
           [("asia-east2", "   YES                YES");
            ("us-central", "   YES                YES")]);
    [reflexivity |].
  repeat constructor; simpl; discriminate.
Defined.

(** ** What the pattern finds *)

Lemma match_here_lit_inv a p s groups :
  Re.match_here (Re.lit a ++ p) s = Some groups ->
  exists s', s = a +:+ s' /\ Re.match_here p s' = Some groups.
Proof.
  revert s. induction a as [| c a IH]; intros s; [by exists s |].
  change (Re.lit (String c a) ++ p) with (Re.Lit c :: (Re.lit a ++ p)).
  cbn [Re.match_here]. destruct s as [| d s]; [done |].
  destruct (Ascii.eqb c d) eqn:E; [| done].
  apply Ascii.eqb_eq in E as <-. intros H.
  apply IH in H as (s' & -> & H). by exists s'.
Qed.

Lemma backtrack_inv cont s k groups :
  Re.backtrack cont s k = Some groups ->
  exists j rest,
    (1 <= j <= k)%nat /\ cont (Re.drop j s) = Some rest
    /\ groups = Re.take j s :: rest.
Proof.
  induction k as [| k IH]; [done |]. cbn [Re.backtrack].
  destruct (cont (Re.drop (S k) s)) as [rest |] eqn:E.
  - intros [= <-]. exists (S k), rest. split; [lia | done].
  - intros H. apply IH in H as (j & rest & Hj & H). exists j, rest.
    split; [lia | done].
Qed.

Lemma backtrack_some cont s k j rest :
  (1 <= j <= k)%nat -> cont (Re.drop j s) = Some rest ->
  exists groups, Re.backtrack cont s k = Some groups.
Proof.
  induction k as [| k IH]; [lia |]. intros Hj Hcont. cbn [Re.backtrack].
  destruct (cont (Re.drop (S k) s)) as [rest' |] eqn:E; [by eexists |].
  apply IH; [| done]. destruct (decide (j = S k)) as [-> | ?]; [congruence | lia].
Qed.

Lemma take_drop j s : s = Re.take j s +:+ Re.drop j s.
Proof.
  revert s. induction j as [| j IH]; intros s; [by destruct s |].
  destruct s as [| c s]; [done |]. cbn [Re.take Re.drop].
  change (String c ?a +:+ ?b) with (String c (a +:+ b)). by rewrite <- IH.
Qed.

Lemma take_on_line j s :
  (j <= Re.dot_run s)%nat -> Text.has_char Text.LF (Re.take j s) = false.
Proof.
  revert s. induction j as [| j IH]; intros s Hj; [by destruct s |].
  destruct s as [| c s]; [done |]. cbn [Re.dot_run] in Hj.
  cbn [Re.take Text.has_char].
  destruct (Ascii.eqb c Text.LF); [lia |]. apply IH. lia.
Qed.

Lemma take_not_empty j s :
  (1 <= j <= Re.dot_run s)%nat -> Re.take j s <> EmptyString.
Proof.
  destruct j as [| j]; [lia |]. destruct s as [| c s]; [simpl; lia | done].
Qed.

Lemma search_inv p s groups :
  Re.search p s = Some groups ->
  exists pre s', s = pre +:+ s' /\ Re.match_here p s' = Some groups.
Proof.
  induction s as [| c s IH]; cbn [Re.search];
    destruct (Re.match_here p _) as [found |] eqn:E.
  - intros [= <-]. by exists EmptyString, EmptyString.
  - done.
  - intros [= <-]. by exists EmptyString, (String c s).
  - intros H. apply IH in H as (pre & s' & -> & H).
    by exists (String c pre), s'.
Qed.

Lemma search_some p pre s' groups :
  Re.match_here p s' = Some groups ->
  exists found, Re.search p (pre +:+ s') = Some found.
Proof.
  intros H. induction pre as [| c pre IH].
  - change (EmptyString +:+ s') with s'.
    destruct s'; cbn [Re.search]; rewrite H; by eexists.
  - change (String c pre +:+ s') with (String c (pre +:+ s')).
    cbn [Re.search].
    destruct (Re.match_here p (String c (pre +:+ s'))); [by eexists | done].
Qed.

Lemma search_url_inv log groups :
  Re.search url_regex log = Some groups ->
  exists url pre post,
    groups = [url] /\ url <> EmptyString
    /\ Text.has_char Text.LF url = false
    /\ log = pre +:+ marker +:+ url +:+ String "]" post.
Proof.
  rewrite url_regex_marker. intros H.
  apply search_inv in H as (pre & s' & -> & H).
  apply match_here_lit_inv in H as (s & -> & H).
  cbn [Re.match_here] in H.
  apply backtrack_inv in H as (j & rest & Hj & Hclose & ->).
  destruct (Re.drop j s) as [| c post] eqn:Hdrop; [done |].
  destruct (Ascii.eqb "]" c) eqn:E; [| done].
  apply Ascii.eqb_eq in E as <-. injection Hclose as <-.
  exists (Re.take j s), pre, post.
  split; [done |]. split; [by apply take_not_empty |].
  split; [apply take_on_line; lia |].
  by rewrite <- Hdrop, <- take_drop.
Qed.

Lemma search_url_some pre text post :
  text <> EmptyString ->
  Text.has_char Text.LF text = false ->
  exists found,
    Re.search url_regex (pre +:+ marker +:+ text +:+ String "]" post)
    = Some found.
Proof.
  intros Htext Hline. rewrite url_regex_marker.
  assert (exists groups,
            Re.match_here (Re.lit marker ++ [Re.GroupAnyPlus; Re.Lit "]"])
              (marker +:+ text +:+ String "]" post) = Some groups)
    as [groups H].
  { rewrite match_here_lit. cbn [Re.match_here].
    apply (backtrack_some _ _ _ (String.length text) []).
    - rewrite dot_run_app by done. cbn [Re.dot_run].
      change (Ascii.eqb "]" Text.LF) with false. cbv iota.
      destruct text; [done | simpl; lia].
    - pose proof (drop_app text (String "]" post) 0) as Hdrop.
      rewrite Nat.add_0_r in Hdrop. rewrite Hdrop.
      cbn [Re.drop]. by rewrite Ascii.eqb_refl. }
  by apply (search_some _ pre) in H.
Qed.

(** X12. What [deploy] finds in the deployment log, taken as the text
    that [err.decode('utf-8')] gives.  Whatever [deploy] returns stands in
    that text between [Deployed service [default] to [] and a closing
    bracket, is not empty and has no line feed; and [deploy] returns
    exactly when the text contains that marker followed on the same line
    by at least one character and a closing bracket. *)
Theorem deploy_returns_iff (env : Env) (w : World) :
  (forall url,
     fst (deploy env w) = Done url ->
     url <> EmptyString
     /\ Text.has_char Text.LF url = false
     /\ exists pre post,
          snd (communicate env "gcloud app deploy --quiet")
          = pre +:+ "Deployed service [default] to [" +:+ url
            +:+ String "]" post)
  /\ ((exists url, fst (deploy env w) = Done url)
      <-> exists pre text post,
            text <> EmptyString
            /\ Text.has_char Text.LF text = false
            /\ snd (communicate env "gcloud app deploy --quiet")
               = pre +:+ "Deployed service [default] to [" +:+ text
                 +:+ String "]" post).
Proof.
  assert (forall url,
            fst (deploy env w) = Done url ->
            url <> EmptyString
            /\ Text.has_char Text.LF url = false
            /\ exists pre post,
                 snd (communicate env "gcloud app deploy --quiet")
                 = pre +:+ marker +:+ url +:+ String "]" post)
    as Hreturned.
  { unfold deploy, popen_communicate. run_script.
    destruct (communicate env "gcloud app deploy --quiet") as [out log].
    simpl.
    destruct (Re.search url_regex log) as [groups |] eqn:Hsearch; [| done].
    apply search_url_inv in Hsearch
      as (url & pre & post & -> & Hurl & Hline & ->).
    intros url' [= <-]. split; [done |]. split; [done |]. by exists pre, post. }
  split; [exact Hreturned |]. split.
  - intros [url H]. destruct (Hreturned url H) as (Hurl & Hline & pre & post & Hlog).
    by exists pre, url, post.
  - intros (pre & text & post & Htext & Hline & Hlog).
    destruct (search_url_some pre text post Htext Hline) as [found Hsearch].
    apply search_url_inv in Hsearch as Hfound.
    destruct Hfound as (url & _ & _ & -> & _).
    exists url. revert Hlog Hsearch.
    unfold deploy, popen_communicate. run_script.
    destruct (communicate env "gcloud app deploy --quiet") as [out log].
    simpl. unfold marker. intros -> Hsearch. by rewrite Hsearch.
Qed.

(** ** The configuration file *)

(** X15. The mapping that [create_config] hands to [json.dump] has
    exactly the four keys [use_firebase_for_credentials],
    [firebase_service_account], [verification_token] and
    [firebase_database_url], whatever the project and the partner key. *)
Theorem create_config_exactly_four_keys (env : Env)
    (project_id partner_key : string) (w : World) :
  exists config : gmap string json,
    adds w (snd (create_config env project_id partner_key w))
      [EvPrint [JStr "Creating configuration file..."];
       EvJsonDump "../resources/config.json" (JObj config)]
    /\ dom config
       = {[ "use_firebase_for_credentials"; "firebase_service_account";
            "verification_token"; "firebase_database_url" ]}.
Proof.
  unfold create_config, json_dump_to, call, print_str, print, bind, emit.
  cbv zeta.
  match goal with
  | |- context [EvJsonDump config_path (JObj ?c)] => set (config := c)
  end.
  exists config.
  destruct (raises env (EvJsonDump config_path (JObj config)))
    as [x |] eqn:E; simpl;
    (split; [unfold adds; simpl; by rewrite <- app_assoc |]);
    subst config; rewrite !dom_insert_L; set_solver.
Qed.

(** ** The theorems at work on further sample runs *)

Lemma enable_apis_stops_at_first_failure_witness :
  enable_apis firebase_api_disabled (fresh [])
  = (Raised (CalledProcessError 1
               ["gcloud"; "services"; "enable"; "firebase.googleapis.com"]),
     after (EvPrint [JStr "Enabling APIs..."]
            :: enable_events
                 ["iam.googleapis.com"; "dialogflow.googleapis.com";
                  "firebase.googleapis.com"]) 0 (fresh [])).
Proof.
  destruct (enable_apis_stops_at_first_failure firebase_api_disabled (fresh []))
    as [_ H].
  apply (H ["iam.googleapis.com"; "dialogflow.googleapis.com"]
           "firebase.googleapis.com"
           ["cloudbuild.googleapis.com"; "businessmessages.googleapis.com";
            "businesscommunications.googleapis.com"]);
    [reflexivity | by repeat constructor | discriminate].
Defined.

Lemma initialize_firebase_request_fails_witness :
  initialize_firebase no_credentials_env 3 "my-project" (fresh [])
  = (Raised (LibraryError "firebase_admin.credentials.Certificate"),
     after [EvPrint [JStr "Initializing Firebase..."];
            EvAccessToken "../resources/generated_firebase_credentials.json"]
       0 (fresh [])).
Proof.
  destruct (initialize_firebase_request_fails no_credentials_env 3
              "my-project"
              (LibraryError "firebase_admin.credentials.Certificate")
              (fresh [])) as [H _].
  by apply H.
Defined.

Lemma main_end_of_input_witness :
  fst (main calm_env 5 (fresh [EmptyString; "my-project"; EmptyString]))
  = Raised EOFError.
Proof.
  destruct (main_end_of_input calm_env 5
              (fresh [EmptyString; "my-project"; EmptyString])) as [_ H].
  by rewrite (H 1%nat 1%nat "my-project"); [| | | lia | lia].
Defined.

(** ** A poll that cannot be made *)

Lemma poll_once_fails env name x w :
  execute env name (polls w) = Fail x ->
  poll_once env name w = (Raised x, after [EvExecute name] 1 w).
Proof.
  intros H. unfold poll_once, request_execute. run_script. rewrite H.
  f_equal. unfold after. f_equal. lia.
Qed.

(** X16. When the operation is pending for [n] polls and the next poll
    itself fails (the request raises), [wait_for_operation] raises that
    error after [n + 1] polls and [n] sleeps: it does not retry. *)
Theorem wait_for_operation_poll_fails (env : Env) (fuel n : nat)
    (name : json) (x : exn) (w : World) :
  setup_succeeds env name ->
  (forall i, (i < n)%nat -> pending (execute env name (polls w + i)%nat)) ->
  execute env name (polls w + n)%nat = Fail x ->
  (n < fuel)%nat ->
  wait_for_operation env fuel name w
  = (Raised x,
     after (wait_setup name ++ poll_rounds name n ++ [EvExecute name])
       (S n) w).
Proof.
  intros Hsetup Hpending Hfail Hfuel.
  rewrite wait_for_operation_loop by done.
  replace fuel with (n + S (fuel - S n))%nat by lia.
  rewrite while_True_pending
    by (intros i Hi; simpl; rewrite Nat.add_0_r; by apply Hpending).
  cbn [while_True]. unfold bind at 1.
  rewrite (poll_once_fails _ _ x) by (simpl; by rewrite Nat.add_0_r).
  rewrite !after_after. f_equal. unfold after. simpl.
  f_equal; solve [by rewrite <- ?app_assoc | lia].
Qed.

Lemma wait_for_operation_poll_fails_witness :
  fst (wait_for_operation unreachable_at_second_poll 5 operation_name
         (fresh []))
  = Raised (LibraryError "googleapiclient.errors.HttpError").
Proof.
  rewrite (wait_for_operation_poll_fails unreachable_at_second_poll 5 1
             operation_name
             (LibraryError "googleapiclient.errors.HttpError") (fresh []));
    [done | by repeat split | | done | lia].
  intros i Hi. assert (i = O) as -> by lia.
  exists ∅. split; [reflexivity |]. split; [reflexivity | by left].
Defined.

(** ** One database URL *)

Lemma only_invariant Q : Invariant Q (only Q).
Proof.
  split.
  - apply only_refl.
  - apply only_trans.
  - intros e w w' He Ht _ _. exists [e]. split; [done | by repeat constructor].
Qed.

Lemma only_db_reference_set Q env path value :
  Q (EvDbSet path value) ->
  preserves (only Q) (db_reference_set env path value).
Proof.
  intros H. apply (inv_bind (only_invariant Q));
    [by apply (inv_call (only_invariant Q)) |].
  intros _ w o w' [= <- <-]. exists []. split; [| done].
  unfold adds. simpl. by rewrite app_nil_r.
Qed.

(** X17. The URL with which [initialize_firebase] initialises the
    database client, whenever it does, is the URL that [create_config]
    writes as [firebase_database_url] for the same project id. *)
Theorem one_database_url (env : Env) (fuel : nat)
    (project_id partner_key : string) (w w0 : World) (t : list Event)
    (options : list (string * string)) :
  adds w (snd (initialize_firebase env fuel project_id w)) t ->
  In (EvInitializeApp options) t ->
  exists (config : gmap string json) (url : string),
    In (EvJsonDump "../resources/config.json" (JObj config))
      (trace (snd (create_config env project_id partner_key w0)))
    /\ config !! "firebase_database_url" = Some (JStr url)
    /\ options = [("databaseURL", url)].
Proof.
  intros Hadds Hin.
  assert (preserves (only (initialises_with (database_url project_id)))
            (initialize_firebase env fuel project_id)) as H.
  { unfold initialize_firebase, get_access_token, requests_post_json,
      wait_for_operation, poll_once.
    inv_tac (only_invariant (initialises_with (database_url project_id)))
      ltac:(apply only_db_reference_set; intros ? ?; discriminate)
      ltac:(first [ intros ? [= <-]; reflexivity
                  | intros ? ?; discriminate ]). }
  destruct (initialize_firebase env fuel project_id w) as [o w'] eqn:E.
  apply H in E as (t' & Ht' & Honly). simpl in Hadds.
  assert (t = t') as -> by by eapply adds_inj.
  rewrite Forall_forall in Honly.
  apply list_elem_of_In, Honly in Hin. specialize (Hin options eq_refl).
  unfold create_config, json_dump_to, call, print_str, print, bind, emit.
  cbv zeta.
  match goal with
  | |- context [EvJsonDump config_path (JObj ?c)] => set (config := c)
  end.
  exists config, (database_url project_id).
  split; [| split; [subst config; by simplify_map_eq | done]].
  destruct (raises env (EvJsonDump config_path (JObj config))); simpl;
    apply in_or_app; right; by left.
Qed.

Lemma one_database_url_witness :
  exists config : gmap string json,
    In (EvJsonDump "../resources/config.json" (JObj config))
      (trace (snd (create_config calm_env "my-project" "s3cret" (fresh []))))
    /\ config !! "firebase_database_url"
       = Some (JStr "https://my-project.firebaseio.com").
Proof.
  destruct (one_database_url calm_env 3 "my-project" "s3cret" (fresh [])
              (fresh [])
              (trace (snd (initialize_firebase calm_env 3 "my-project"
                             (fresh []))))
              [("databaseURL", "https://my-project.firebaseio.com")])
    as (config & url & Hdump & Hurl & Hoptions);
    [reflexivity | vm_compute; tauto |].
  injection Hoptions as <-. by exists config.
Defined.

(** ** A run in which everything succeeds *)

Lemma subprocess_run_ok env argv w :
  exit_status env argv = 0 ->
  subprocess_run env argv w = (Done tt, log (EvRun argv) w).
Proof. intros H. unfold subprocess_run. run_script. by rewrite H. Qed.

Lemma set_region_existing env fuel w :
  snd (communicate env "gcloud app describe") = EmptyString ->
  set_region env fuel w = (Done tt, log (EvPopen "gcloud app describe" None) w).
Proof.
  intros H. unfold set_region, popen_communicate. run_script.
  destruct (communicate env "gcloud app describe") as [out err].
  simpl in H. by subst.
Qed.

Lemma get_service_key_ok env project_id w :
  (forall argv, exit_status env argv = 0) ->
  get_service_key env project_id w
  = (Done tt,
     after [EvPrint [JStr "Creating and saving service account..."];
            EvRun create_account_argv;
            EvRun (create_key_argv project_id);
            EvRun (add_role_argv project_id)] 0 w).
Proof.
  intros H.
  unfold get_service_key, try_except_CalledProcessError, subprocess_run.
  run_script. rewrite !H. simpl. f_equal.
  unfold after, log. simpl. f_equal; [by rewrite <- !app_assoc | lia].
Qed.

Lemma initialize_firebase_ok env fuel project_id token m name w :
  access_token env credentials_path = Ok token ->
  post_json env (add_firebase_uri project_id)
    [("Authorization", "Bearer " +:+ token)] = Ok (JObj m) ->
  not_conflict m ->
  m !! "name" = Some name ->
  setup_succeeds env name ->
  reports_done (execute env name (polls w)) ->
  no_error (execute env name (polls w)) ->
  (forall e, raises env e = None) ->
  (0 < fuel)%nat ->
  exists t,
    initialize_firebase env fuel project_id w
    = (Done tt,
       {| trace := trace w ++ t; stdin := stdin w; polls := S (polls w);
          files := files w; db := <["setup/" := sentinel]> (db w) |}).
Proof.
  intros Htoken Hpost Hconflict Hname Hsetup Hdone Hno Hraises Hfuel.
  rewrite (initialize_firebase_waits _ _ _ token m name) by done.
  unfold bind at 1. rewrite wait_for_operation_loop by done.
  destruct fuel as [| fuel]; [lia |].
  cbn [while_True]. unfold bind at 1.
  rewrite poll_once_done by (simpl; by rewrite !Nat.add_0_r).
  cbv iota beta. unfold ret at 1. cbv iota beta.
  unfold write_sentinel, db_reference_set, call. run_script.
  rewrite !Hraises. simpl. eexists. f_equal. f_equal.
  - rewrite <- !app_assoc. reflexivity.
  - lia.
Qed.

Lemma create_config_ok env project_id partner_key w :
  (forall e, raises env e = None) ->
  exists config : gmap string json,
    config !! "verification_token" = Some (JStr partner_key)
    /\ config !! "firebase_database_url"
       = Some (JStr (database_url project_id))
    /\ create_config env project_id partner_key w
       = (Done tt,
          {| trace :=
               trace w
               ++ [EvPrint [JStr "Creating configuration file..."];
                   EvJsonDump config_path (JObj config)];
             stdin := stdin w; polls := polls w;
             files := <[config_path := JObj config]> (files w);
             db := db w |}).
Proof.
  intros Hraises.
  unfold create_config, json_dump_to, call, print_str, print, bind, emit.
  cbv zeta.
  match goal with
  | |- context [EvJsonDump config_path (JObj ?c)] => set (config := c)
  end.
  exists config. split; [subst config; by simplify_map_eq |].
  split; [subst config; by simplify_map_eq |].
  rewrite Hraises. simpl. by rewrite <- app_assoc.
Qed.

Lemma deploy_ok env url w :
  group_1 (Re.search url_regex (snd (communicate env "gcloud app deploy --quiet")))
  = Ok url ->
  deploy env w
  = (Done url,
     after [EvPrint [JStr "Deploying. This may take several minutes..."];
            EvPopen "gcloud app deploy --quiet" (Some (getcwd env +:+ "/../"));
            EvPrint [JStr (snd (communicate env "gcloud app deploy --quiet"))]]
       0 w).
Proof.
  intros H. unfold deploy, popen_communicate. run_script.
  destruct (communicate env "gcloud app deploy --quiet") as [out text].
  simpl in *. rewrite H. simpl. f_equal.
  unfold after, log. simpl. f_equal; solve [by rewrite <- ?app_assoc | lia].
Qed.

(** X18. When the user types a project id and a partner key, an app
    exists, every command exits with status 0, no library call fails, the
    add-database call names an operation that is done at the first poll
    and the deployment log names the URL, [main] returns: the
    configuration file holds the partner key and the database URL of the
    project, the sentinel record is in the database, the two lines typed
    are the only ones read, and the last thing printed is the summary
    with the deployed URL. *)
Theorem main_succeeds (env : Env) (fuel : nat) (w : World)
    (project_id partner_key token url : string) (rest : list string)
    (m : gmap string json) (name : json) :
  stdin w = project_id :: partner_key :: rest ->
  project_id <> EmptyString ->
  partner_key <> EmptyString ->
  (0 < fuel)%nat ->
  (forall argv, exit_status env argv = 0) ->
  (forall e, raises env e = None) ->
  snd (communicate env "gcloud app describe") = EmptyString ->
  access_token env credentials_path = Ok token ->
  post_json env (add_firebase_uri project_id)
    [("Authorization", "Bearer " +:+ token)] = Ok (JObj m) ->
  not_conflict m ->
  m !! "name" = Some name ->
  reports_done (execute env name (polls w)) ->
  no_error (execute env name (polls w)) ->
  group_1 (Re.search url_regex (snd (communicate env "gcloud app deploy --quiet")))
  = Ok url ->
  exists w' (config : gmap string json),
    main env fuel w = (Done tt, w')
    /\ files w' !! "../resources/config.json" = Some (JObj config)
    /\ config !! "verification_token" = Some (JStr partner_key)
    /\ config !! "firebase_database_url"
       = Some (JStr ("https://" +:+ project_id +:+ ".firebaseio.com"))
    /\ db w' !! "setup/" = Some (JObj {[ "completed" := JBool true ]})
    /\ stdin w' = rest
    /\ last (trace w') = Some (EvPrint [JStr (summary url project_id)]).
Proof.
  intros Hstdin Hid Hkey Hfuel Hexit Hraises Hdescribe Htoken Hpost
    Hconflict Hname Hdone Hno Hurl.
  unfold main. unfold bind at 1.
  rewrite (prompt_loop_reads _ 0 fuel project_id (partner_key :: rest))
    by done.
  unfold bind at 1.
  rewrite (prompt_loop_reads _ 0 fuel partner_key rest) by done.
  unfold bind at 1, print at 1, emit at 1.
  unfold bind at 1. rewrite subprocess_run_ok by done.
  unfold bind at 1. rewrite set_region_existing by done.
  unfold bind at 1.
  unfold enable_apis. unfold bind at 1, print_str at 1, print at 1, emit at 1.
  rewrite for_each_enable_ok by (apply Forall_forall; intros; apply Hexit).
  unfold bind at 1. rewrite get_service_key_ok by done.
  unfold bind at 1.
  match goal with
  | |- context [initialize_firebase env fuel project_id ?w0] =>
      destruct (initialize_firebase_ok env fuel project_id token m name w0)
        as [t Hinit]; try done;
        try (simpl; by rewrite ?Nat.add_0_r);
        rewrite Hinit
  end.
  unfold bind at 1.
  match goal with
  | |- context [create_config env project_id partner_key ?w0] =>
      destruct (create_config_ok env project_id partner_key w0 Hraises)
        as (config & Hc1 & Hc2 & Hconfig); rewrite Hconfig
  end.
  unfold bind at 1. rewrite (deploy_ok env url) by done.
  unfold print_str, print, bind, emit.
  eexists. exists config. split; [reflexivity |].
  split; [simpl; apply lookup_insert_eq |].
  split; [done |]. split; [done |].
  split; [simpl; apply lookup_insert_eq |].
  split; [reflexivity |].
  simpl. apply last_snoc.
Qed.

Lemma main_succeeds_witness :
  exists w' (config : gmap string json),
    main calm_env 1 (fresh ["my-project"; "s3cret"]) = (Done tt, w')
    /\ files w' !! "../resources/config.json" = Some (JObj config)
    /\ config !! "verification_token" = Some (JStr "s3cret")
    /\ db w' !! "setup/" = Some (JObj {[ "completed" := JBool true ]}).
Proof.
  destruct (main_succeeds calm_env 1 (fresh ["my-project"; "s3cret"])
              "my-project" "s3cret" "ya29.token"
              "https://example.appspot.com" []
              {[ "name" := operation_name ]} operation_name)
    as (w' & config & H & Hfile & Htoken & _ & Hdb & _);
    try done; try lia.
  - by left.
  - exists {[ "done" := JBool true ]}, (JBool true). by repeat split.
  - intros error (m & [= <-] & Hm). vm_compute in Hm. discriminate.
  - by exists w', config.
Defined.

Lemma deploy_returns_iff_witness :
  exists url, fst (deploy calm_env (fresh [])) = Done url.
Proof.
  apply (deploy_returns_iff calm_env (fresh [])).
  exists ("Updating service [default]...done." +:+ Text.nl),
    "https://example.appspot.com",
    (Text.nl +:+ "You can stream logs from the command line").
  split; [discriminate |]. split; reflexivity.
Defined.
